(** * verifier.cpp: the signature benchmarking harness

    A shallow embedding of [src/verifier.cpp].  The cryptographic library
    (key generation, validation, signing, verification), the keyed random
    number generator and the steady clock are external to the file.  The
    library is taken as an interface ([CryptoLib]): its routines return, and
    what they return is determined by their arguments and by the blocks they
    draw from the generator.  The clock is an oracle carried by the world.
    Everything the file itself does (the parameter tables, the string
    building, the control flow of the timed protocol with its assertions,
    the eight adapters, the driver and [main]) is translated function by
    function, with the mutable state (standard input and output, the static
    generator object, the clock) passed explicitly and every call that
    leaves the file recorded in a trace. *)

From Stdlib Require Import ZArith List String Ascii Bool Lia.
From Stdlib Require Import Decimal DecimalString DecimalPos DecimalZ.
Import ListNotations.

Local Open Scope string_scope.
Local Open Scope Z_scope.

(** ** Machine integers *)

(** [int] is 32 bits wide and [size_t] 64 bits wide on the platforms the
    harness is built for; conversions between them wrap. *)
Definition int_of (z : Z) : Z := (z + 2 ^ 31) mod 2 ^ 32 - 2 ^ 31.
Definition size_t_of (z : Z) : Z := z mod 2 ^ 64.

(** ** The security level table (lines 51-56) *)

Definition NUMBER_OF_SECURITY_LENGTHS : Z := 5.
Definition securityLevels : list Z := [80; 112; 128; 192; 256].
Definition finiteFieldSizes : list Z := [1024; 2048; 3072; 7680; 15360].
Definition finiteFieldSubgroupSizes : list Z := [160; 224; 256; 384; 511].
Definition factorizationGroupSizes : list Z := [1024; 2048; 3072; 7680; 15360].
Definition ellipticCurveSizes : list Z := [160; 224; 256; 384; 512].

(** Array subscript [a[i]]; [main] only ever produces indices 0..4, outside
    of which the C++ program has no defined behaviour (the model reads 0). *)
Definition at_index (a : list Z) (i : Z) : Z :=
  if i <? 0 then 0 else nth (Z.to_nat i) a 0.

(** ** std::to_string and the description / CSV encoders (lines 65-103) *)

(** [std::to_string] on an [int] or a [size_t]: the decimal digits, with a
    leading minus sign for a negative [int]. *)
Definition to_string (z : Z) : string := NilZero.string_of_int (Z.to_int z).

Definition generateDetailedDescription (algorithmName : string)
    (securityLevel keyLength inputLength : Z) : string :=
  let fullDescription := "" in
  let fullDescription := fullDescription ++ algorithmName in
  let fullDescription := fullDescription ++ "," in
  let fullDescription := fullDescription ++ to_string securityLevel in
  let fullDescription := fullDescription ++ "," in
  let fullDescription := fullDescription ++ to_string keyLength in
  let fullDescription := fullDescription ++ "," in
  let fullDescription := fullDescription ++ to_string inputLength in
  fullDescription.

Definition generateSignDescription (algorithmName : string)
    (securityLevel keyLength inputLength : Z) : string :=
  let fullDescription := "" in
  let fullDescription := fullDescription ++ "sign," in
  let fullDescription := fullDescription ++
    generateDetailedDescription algorithmName securityLevel keyLength inputLength in
  fullDescription.

Definition generateVerifyDescription (algorithmName : string)
    (securityLevel keyLength inputLength : Z) : string :=
  let fullDescription := "" in
  let fullDescription := fullDescription ++ "verify," in
  let fullDescription := fullDescription ++
    generateDetailedDescription algorithmName securityLevel keyLength inputLength in
  fullDescription.

(** [delta] is a [size_t]. *)
Definition generateCSVString (description operation : string) (delta : Z) : string :=
  let csv := "" in
  let csv := csv ++ description in
  let csv := csv ++ "," in
  let csv := csv ++ operation in
  let csv := csv ++ "," in
  let csv := csv ++ to_string delta in
  csv.

(** ** Reading a CSV line back: its comma separated fields *)

Definition comma : ascii := ","%char.

Fixpoint fields (s : string) : list string :=
  match s with
  | EmptyString => [EmptyString]
  | String c r =>
      if Ascii.eqb c comma then EmptyString :: fields r
      else match fields r with
           | f :: fs => String c f :: fs
           | [] => [String c EmptyString]
           end
  end.

Fixpoint no_comma (s : string) : bool :=
  match s with
  | EmptyString => true
  | String c r => negb (Ascii.eqb c comma) && no_comma r
  end.

Definition is_digit (c : ascii) : bool :=
  let n := nat_of_ascii c in (48 <=? n)%nat && (n <=? 57)%nat.

Fixpoint all_digits (s : string) : bool :=
  match s with
  | EmptyString => true
  | String c r => is_digit c && all_digits r
  end.

(** A non-negative decimal numeral: at least one character, digits only. *)
Definition is_numeral (s : string) : bool :=
  match s with
  | EmptyString => false
  | _ => all_digits s
  end.

(** ** The security level lookup (lines 323-329) *)

(** The [for] loop with its [break]: [i] is the loop counter, [securityIndex]
    the variable assigned in the body; [fuel] bounds the iterations. *)
Fixpoint lookup_loop (fuel : nat) (i securityLevel securityIndex : Z) : Z :=
  match fuel with
  | O => securityIndex
  | S fuel' =>
      if i <? NUMBER_OF_SECURITY_LENGTHS then
        if at_index securityLevels i =? securityLevel then i
        else lookup_loop fuel' (i + 1) securityLevel securityIndex
      else securityIndex
  end.

(** [int securityIndex = 0; for (int i = 0; i < 5; i++) ...]; six units of
    fuel let the loop reach its exit test. *)
Definition indexFor (securityLevel : Z) : Z :=
  lookup_loop 6 0 securityLevel 0.

(** The lookup as the specification words it: position of the first exact
    match in a table, 0 when there is none. *)
Fixpoint first_exact_match (table : list Z) (strengthBits : Z) (pos : Z) : option Z :=
  match table with
  | [] => None
  | x :: rest =>
      if x =? strengthBits then Some pos
      else first_exact_match rest strengthBits (pos + 1)
  end.

Definition spec_indexFor (strengthBits : Z) : Z :=
  match first_exact_match securityLevels strengthBits 0 with
  | Some i => i
  | None => 0
  end.

(** ** atoi (line 307) *)

Definition is_space (c : ascii) : bool :=
  let n := nat_of_ascii c in
  (n =? 32)%nat || ((9 <=? n)%nat && (n <=? 13)%nat).

Fixpoint skip_spaces (s : string) : string :=
  match s with
  | String c r => if is_space c then skip_spaces r else s
  | EmptyString => s
  end.

Fixpoint digits_value (s : string) (acc : Z) : Z :=
  match s with
  | String c r =>
      if is_digit c
      then digits_value r (10 * acc + (Z.of_nat (nat_of_ascii c) - 48))
      else acc
  | EmptyString => acc
  end.

Definition clamp_long (z : Z) : Z := Z.max (- 2 ^ 63) (Z.min (2 ^ 63 - 1) z).

(** [atoi] as the C library implements it, [(int) strtol(s, NULL, 10)]:
    leading white space, an optional sign, then the longest run of digits;
    no digits give 0; [strtol] saturates at the range of [long] and the
    cast to [int] wraps. *)
Definition atoi (s : string) : Z :=
  let s := skip_spaces s in
  let v :=
    match s with
    | String "-" r => - digits_value r 0
    | String "+" r => digits_value r 0
    | _ => digits_value s 0
    end in
  int_of (clamp_long v).

(** ** std::getline and the input loop (lines 311-317) *)

Definition newline : ascii := "010"%char.

(** Characters of the next line, and the stream behind its delimiter. *)
Fixpoint take_line (s : string) : string * string :=
  match s with
  | EmptyString => (EmptyString, EmptyString)
  | String c r =>
      if Ascii.eqb c newline then (EmptyString, r)
      else let (l, rest) := take_line r in (String c l, rest)
  end.

(** [getline(cin, line)]: fails (the stream converts to [false]) exactly when
    no character at all could be extracted; otherwise it delivers the
    characters before the next newline and consumes that newline. *)
Definition getline (cin : string) : option (string * string) :=
  match cin with
  | EmptyString => None
  | _ => Some (take_line cin)
  end.

(** [while (getline(cin, line)) fullLine.append(line);] with the loop bounded
    by [fuel]; the result is [fullLine] and the unread rest of the stream. *)
Fixpoint read_loop (fuel : nat) (cin fullLine : string) : string * string :=
  match fuel with
  | O => (fullLine, cin)
  | S fuel' =>
      match getline cin with
      | None => (fullLine, cin)
      | Some (line, cin') => read_loop fuel' cin' (fullLine ++ line)
      end
  end.

(** Every successful [getline] consumes at least one character, so one more
    unit of fuel than there are characters lets the loop reach end of stream. *)
Definition read_all (cin : string) : string * string :=
  read_loop (S (String.length cin)) cin "".

Fixpoint strip_newlines (s : string) : string :=
  match s with
  | EmptyString => EmptyString
  | String c r => if Ascii.eqb c newline then strip_newlines r
                  else String c (strip_newlines r)
  end.

(** [rngSeed.resize(n)]: truncate, or pad with NUL characters. *)
Fixpoint resize (n : nat) (s : string) : string :=
  match n with
  | O => EmptyString
  | S n' =>
      match s with
      | EmptyString => String Ascii.zero (resize n' EmptyString)
      | String c r => String c (resize n' r)
      end
  end.

(** ** The external collaborators *)

Definition byte : Type := Byte.byte.

(** The signature classes the adapters instantiate. *)
Inductive scheme : Type :=
| RSASSA_PKCS1v15_MD2
| NR_SHA
| DSA
| LUCSSA_PKCS1v15_SHA
| LUC_HMP_SHA
| RabinSS_PSSR_SHA
| RWSS_PSSR_SHA
| ECDSA_EC2N_SHA.

(** The elliptic curve data written out in [ValidateECDSA] (lines 250-259):
    the field [GF2NT(191, 9, 0)], the curve coefficients, the encoded base
    point, the group order and the private scalar. *)
Record EC_vector : Type := {
  ec_field : Z * Z * Z;
  ec_a : list Z;
  ec_b : list Z;
  ec_P : list Z;
  ec_n : string;
  ec_d : string
}.

Definition P1363_vector : EC_vector := {|
  ec_field := (191, 9, 0);
  ec_a := [0x28; 0x66; 0x53; 0x7B; 0x67; 0x67; 0x52; 0x63; 0x6A; 0x68; 0xF5; 0x65;
           0x54; 0xE1; 0x26; 0x40; 0x27; 0x6B; 0x64; 0x9E; 0xF7; 0x52; 0x62; 0x67];
  ec_b := [0x2E; 0x45; 0xEF; 0x57; 0x1F; 0x00; 0x78; 0x6F; 0x67; 0xB0; 0x08; 0x1B;
           0x94; 0x95; 0xA3; 0xD9; 0x54; 0x62; 0xF5; 0xDE; 0x0A; 0xA1; 0x85; 0xEC];
  ec_P := [0x04; 0x36; 0xB3; 0xDA; 0xF8; 0xA2; 0x32; 0x06; 0xF9; 0xC4; 0xF2; 0x99;
           0xD7; 0xB2; 0x1A; 0x9C; 0x36; 0x91; 0x37; 0xF2; 0xC8; 0x4A; 0xE1; 0xAA;
           0x0D; 0x76; 0x5B; 0xE7; 0x34; 0x33; 0xB3; 0xF9; 0x5E; 0x33; 0x29; 0x32;
           0xE7; 0x0E; 0xA2; 0x45; 0xCA; 0x24; 0x18; 0xEA; 0x0E; 0xF9; 0x80; 0x18;
           0xFB];
  ec_n := "40000000000000000000000004a20e90c39067c893bbb9a5H";
  ec_d := "340562e1dda332f9d2aec168249b5696ee39d0ed4d03760fH"
|}.

(** A library routine that is handed [GlobalRNG()] is a program that may ask
    the generator for blocks of bytes, any number of times, before it
    answers. *)
Inductive draw (A : Type) : Type :=
| Done (a : A)
| Draw (n : Z) (k : list byte -> draw A).

Arguments Done {A} a.
Arguments Draw {A} n k.

(** What the harness asks of the library: the keyed generator
    ([OFB_Mode<AES>::Encryption]), the constructors of signers and verifiers,
    and the virtual methods of [PK_Signer] and [PK_Verifier]. *)
Class CryptoLib : Type := {
  rng_t : Type;
  SetKeyWithIV : rng_t -> list byte -> Z -> list byte -> rng_t;
  GenerateBlock : rng_t -> Z -> list byte * rng_t;
  signer : Type;
  verifier : Type;
  (* [Signer(rng, bits)]: generates a fresh key of the given magnitude *)
  Signer_generate : scheme -> Z -> draw signer;
  (* [ECDSA<EC2N, SHA>::Signer(ec, P, n, d)] *)
  Signer_of_vector : EC_vector -> signer;
  Precompute : signer -> signer;
  (* [Verifier(priv)] *)
  Verifier_of : scheme -> signer -> verifier;
  Validate_pub : verifier -> Z -> draw bool;
  Validate_priv : signer -> Z -> draw bool;
  MaxSignatureLength : signer -> Z;
  (* the bytes written to the signature buffer and their number *)
  SignMessage : signer -> list byte -> Z -> draw (list byte * Z);
  VerifyMessage : verifier -> list byte -> Z -> list byte -> Z -> bool
}.

(** The calls that leave the file, in the order they return. *)
Inductive call : Type :=
| call_RegisterFactories
| call_SetKeyWithIV (key : list byte) (length : Z) (iv : list byte)
| call_GenerateBlock (size : Z) (output : list byte)
| call_Signer (s : scheme) (bits : Z)
| call_ECDSA_Signer (v : EC_vector)
| call_Precompute
| call_Verifier (s : scheme)
| call_Validate_pub (level : Z) (result : bool)
| call_Validate_priv (level : Z) (result : bool)
| call_MaxSignatureLength (result : Z)
| call_SignMessage (input : list byte) (inputLength : Z) (signatureLength : Z)
| call_VerifyMessage (input : list byte) (inputLength : Z)
                     (signatureLength : Z) (result : bool)
| call_now (t : Z).

Section Harness.

Context {lib : CryptoLib}.

(** ** The world the program runs in *)

(** [cin] is the unread part of standard input; [cout] the lines written so
    far, one entry per [cout << ... << endl] (which also flushes);
    [s_globalRNG] the static generator object; [steady_clock] the readings
    the clock will deliver, of which [clock_reads] are used up; [trace] the
    calls made so far. *)
Record world : Type := {
  cin : string;
  cout : list string;
  s_globalRNG : rng_t;
  steady_clock : nat -> Z;
  clock_reads : nat;
  trace : list call
}.

(** A run either returns or is stopped by a failed [assert]. *)
Inductive outcome (A : Type) : Type :=
| Returned (a : A) (w : world)
| Aborted (w : world).

Arguments Returned {A} a w.
Arguments Aborted {A} w.

Definition M (A : Type) : Type := world -> outcome A.

Definition ret {A} (a : A) : M A := fun w => Returned a w.

Definition bind {A B} (m : M A) (f : A -> M B) : M B :=
  fun w => match m w with
           | Returned a w' => f a w'
           | Aborted w' => Aborted w'
           end.

Notation "x <- m ;; k" := (bind m (fun x => k))
  (at level 61, m at next level, right associativity).
Notation "m ;; k" := (bind m (fun _ => k))
  (at level 61, right associativity).

Definition final {A} (o : outcome A) : world :=
  match o with Returned _ w => w | Aborted w => w end.

(** [assert(b)]; the build line of the file defines no [NDEBUG]. *)
Definition assert (b : bool) : M unit :=
  fun w => if b then Returned tt w else Aborted w.

(** [cout << s << endl] *)
Definition print_line (s : string) : M unit :=
  fun w => Returned tt
    {| cin := cin w; cout := cout w ++ [s]; s_globalRNG := s_globalRNG w;
       steady_clock := steady_clock w; clock_reads := clock_reads w;
       trace := trace w |}.

Definition log (c : call) : M unit :=
  fun w => Returned tt
    {| cin := cin w; cout := cout w; s_globalRNG := s_globalRNG w;
       steady_clock := steady_clock w; clock_reads := clock_reads w;
       trace := trace w ++ [c] |}.

(** [std::chrono::steady_clock::now()], in nanoseconds *)
Definition now : M Z :=
  fun w =>
    let t := steady_clock w (clock_reads w) in
    Returned t
      {| cin := cin w; cout := cout w; s_globalRNG := s_globalRNG w;
         steady_clock := steady_clock w; clock_reads := S (clock_reads w);
         trace := trace w ++ [call_now t] |}.

(** Running a library routine against the generator, every block recorded. *)
Fixpoint run_draw {A} (p : draw A) (g : rng_t) (tr : list call)
  : A * rng_t * list call :=
  match p with
  | Done a => (a, g, tr)
  | Draw n k =>
      let (block, g') := GenerateBlock g n in
      run_draw (k block) g' (tr ++ [call_GenerateBlock n block])
  end.

(** A library routine called with [GlobalRNG()]. *)
Definition with_GlobalRNG {A} (p : draw A) (ev : A -> call) : M A :=
  fun w =>
    let '(a, g, tr) := run_draw p (s_globalRNG w) (trace w) in
    Returned a
      {| cin := cin w; cout := cout w; s_globalRNG := g;
         steady_clock := steady_clock w; clock_reads := clock_reads w;
         trace := tr ++ [ev a] |}.

(** A library routine that uses no randomness. *)
Definition call_out {A} (a : A) (ev : call) : M A := log ev ;; ret a.

(** [s_globalRNG.SetKeyWithIV(key, length, iv)] *)
Definition GlobalRNG_SetKeyWithIV (key : list byte) (length : Z) (iv : list byte)
  : M unit :=
  fun w => Returned tt
    {| cin := cin w; cout := cout w;
       s_globalRNG := SetKeyWithIV (s_globalRNG w) key length iv;
       steady_clock := steady_clock w; clock_reads := clock_reads w;
       trace := trace w ++ [call_SetKeyWithIV key length iv] |}.

(** The loop over [getline(cin, line)] of [main]. *)
Definition read_cin : M string :=
  fun w =>
    let (fullLine, rest) := read_all (cin w) in
    Returned fullLine
      {| cin := rest; cout := cout w; s_globalRNG := s_globalRNG w;
         steady_clock := steady_clock w; clock_reads := clock_reads w;
         trace := trace w |}.

(** [duration_cast<nanoseconds>(end - start).count()] stored in a [size_t] *)
Definition nanoseconds (startTime endTime : Z) : Z := size_t_of (endTime - startTime).

(** ** The timed validation protocol (lines 119-145) *)

Definition ProfileSignatureValidate (priv : signer) (pub : verifier)
    (input : list byte) (inputLength : Z) (description : string)
    (thorough : bool) : M bool :=
  let pass := true in
  let level := if thorough then 3 else 2 in
  pubOk <- with_GlobalRNG (Validate_pub pub level) (call_Validate_pub level) ;;
  fail <- (if negb pubOk then ret true
           else privOk <- with_GlobalRNG (Validate_priv priv level)
                                         (call_Validate_priv level) ;;
                ret (negb privOk)) ;;
  assert (pass && negb fail) ;;
  _ <- call_out tt (call_MaxSignatureLength (MaxSignatureLength priv)) ;;
  signStartTime <- now ;;
  signed <- with_GlobalRNG (SignMessage priv input inputLength)
              (fun r => call_SignMessage input inputLength (snd r)) ;;
  let signature := fst signed in
  let signatureLength := snd signed in
  signEndTime <- now ;;
  let signNanoSeconds := nanoseconds signStartTime signEndTime in
  print_line (generateCSVString description "sign" signNanoSeconds) ;;
  verifyStartTime <- now ;;
  let verified := VerifyMessage pub input inputLength signature signatureLength in
  fail <- call_out (negb verified)
            (call_VerifyMessage input inputLength signatureLength verified) ;;
  verifyEndTime <- now ;;
  let verifyNanoSeconds := nanoseconds verifyStartTime verifyEndTime in
  print_line (generateCSVString description "verify" verifyNanoSeconds) ;;
  assert (pass && negb fail) ;;
  ret pass.

(** ** The eight adapters (lines 147-268) *)

Definition new_Signer (s : scheme) (bits : Z) : M signer :=
  with_GlobalRNG (Signer_generate s bits) (fun _ => call_Signer s bits).

Definition new_Verifier (s : scheme) (priv : signer) : M verifier :=
  call_out (Verifier_of s priv) (call_Verifier s).

Definition ValidateRSA (input : list byte) (inputLength secLevelIndex : Z) : M bool :=
  let description := generateDetailedDescription "RSA"
    (at_index securityLevels secLevelIndex)
    (at_index factorizationGroupSizes secLevelIndex) (int_of inputLength) in
  rsaPriv <- new_Signer RSASSA_PKCS1v15_MD2
               (at_index factorizationGroupSizes secLevelIndex) ;;
  rsaPub <- new_Verifier RSASSA_PKCS1v15_MD2 rsaPriv ;;
  pass <- ProfileSignatureValidate rsaPriv rsaPub input inputLength description false ;;
  assert pass ;;
  ret pass.

Definition ValidateNR (input : list byte) (inputLength secLevelIndex : Z) : M bool :=
  let description := generateDetailedDescription "NR"
    (at_index securityLevels secLevelIndex)
    (at_index factorizationGroupSizes secLevelIndex) (int_of inputLength) in
  privS <- new_Signer NR_SHA (at_index finiteFieldSubgroupSizes secLevelIndex) ;;
  privS <- call_out (Precompute privS) call_Precompute ;;
  pubS <- new_Verifier NR_SHA privS ;;
  pass <- ProfileSignatureValidate privS pubS input inputLength description false ;;
  assert pass ;;
  ret pass.

Definition ValidateDSA (input : list byte) (inputLength secLevelIndex : Z) : M bool :=
  let description := generateDetailedDescription "DSA"
    (at_index securityLevels secLevelIndex)
    (at_index factorizationGroupSizes secLevelIndex) (int_of inputLength) in
  priv <- new_Signer DSA (at_index factorizationGroupSizes secLevelIndex) ;;
  pub <- new_Verifier DSA priv ;;
  pass <- ProfileSignatureValidate priv pub input inputLength description false ;;
  assert pass ;;
  ret pass.

Definition ValidateLUC (input : list byte) (inputLength secLevelIndex : Z) : M bool :=
  let description := generateDetailedDescription "LUC"
    (at_index securityLevels secLevelIndex)
    (at_index factorizationGroupSizes secLevelIndex) (int_of inputLength) in
  priv <- new_Signer LUCSSA_PKCS1v15_SHA
            (at_index factorizationGroupSizes secLevelIndex) ;;
  pub <- new_Verifier LUCSSA_PKCS1v15_SHA priv ;;
  pass <- ProfileSignatureValidate priv pub input inputLength description false ;;
  assert pass ;;
  ret pass.

Definition ValidateLUC_DL (input : list byte) (inputLength secLevelIndex : Z) : M bool :=
  let description := generateDetailedDescription "LUC-DL"
    (at_index securityLevels secLevelIndex)
    (at_index finiteFieldSizes secLevelIndex) (int_of inputLength) in
  privS <- new_Signer LUC_HMP_SHA (at_index finiteFieldSizes secLevelIndex) ;;
  pubS <- new_Verifier LUC_HMP_SHA privS ;;
  pass <- ProfileSignatureValidate privS pubS input inputLength description false ;;
  assert pass ;;
  ret pass.

Definition ValidateRabin (input : list byte) (inputLength secLevelIndex : Z) : M bool :=
  let description := generateDetailedDescription "Rabin"
    (at_index securityLevels secLevelIndex)
    (at_index factorizationGroupSizes secLevelIndex) (int_of inputLength) in
  priv <- new_Signer RabinSS_PSSR_SHA
            (at_index factorizationGroupSizes secLevelIndex) ;;
  pub <- new_Verifier RabinSS_PSSR_SHA priv ;;
  pass <- ProfileSignatureValidate priv pub input inputLength description false ;;
  assert pass ;;
  ret pass.

Definition ValidateRW (input : list byte) (inputLength secLevelIndex : Z) : M bool :=
  let description := generateDetailedDescription "RW"
    (at_index securityLevels secLevelIndex)
    (at_index factorizationGroupSizes secLevelIndex) (int_of inputLength) in
  priv <- new_Signer RWSS_PSSR_SHA
            (at_index factorizationGroupSizes secLevelIndex) ;;
  pub <- new_Verifier RWSS_PSSR_SHA priv ;;
  pass <- ProfileSignatureValidate priv pub input inputLength description false ;;
  assert pass ;;
  ret pass.

Definition ValidateECDSA (input : list byte) (inputLength secLevelIndex : Z) : M bool :=
  let description := generateDetailedDescription "ECDSA"
    (at_index securityLevels secLevelIndex) 1 (int_of inputLength) in
  priv <- call_out (Signer_of_vector P1363_vector)
            (call_ECDSA_Signer P1363_vector) ;;
  pub <- new_Verifier ECDSA_EC2N_SHA priv ;;
  pass <- ProfileSignatureValidate priv pub input inputLength description false ;;
  assert pass ;;
  ret pass.

(** ** The driver (lines 284-293) *)

Definition ProfileSignatureSchemes (inputData : list byte)
    (inputLength securityLevel : Z) : M unit :=
  ValidateRSA inputData inputLength securityLevel ;;
  ValidateNR inputData inputLength securityLevel ;;
  ValidateDSA inputData inputLength securityLevel ;;
  ValidateLUC inputData inputLength securityLevel ;;
  ValidateLUC_DL inputData inputLength securityLevel ;;
  ValidateRabin inputData inputLength securityLevel ;;
  ValidateRW inputData inputLength securityLevel ;;
  ValidateECDSA inputData inputLength securityLevel ;;
  ret tt.

(** ** Usage and main (lines 295-332) *)

Definition usage_lines : list string :=
  [ "usage: verifier <security-level> <rng-seed>";
    "       security-level: the AES security equivalent level";
    "       rng-seed:       the seed for the global RNG" ].

Definition showUsage : M unit :=
  print_line "usage: verifier <security-level> <rng-seed>" ;;
  print_line "       security-level: the AES security equivalent level" ;;
  print_line "       rng-seed:       the seed for the global RNG".

(** [argv] holds the program name and the arguments; [argc] is its length.
    The value returned is the exit code, 0 when control reaches the end. *)
Definition main (argv : list string) : M Z :=
  let argc := Z.of_nat (List.length argv) in
  if negb (argc =? 3) then
    showUsage ;;
    ret 1
  else
    let securityLevel := atoi (nth 1 argv "") in
    let rngSeed := nth 2 argv "" in
    let rngSeedLength := 16 in
    fullLine <- read_cin ;;
    let inputData := list_byte_of_string fullLine in
    let inputLength := int_of (Z.of_nat (String.length fullLine)) in
    call_out tt call_RegisterFactories ;;
    let rngSeed := resize (Z.to_nat rngSeedLength) rngSeed in
    GlobalRNG_SetKeyWithIV (list_byte_of_string rngSeed) rngSeedLength
                           (list_byte_of_string rngSeed) ;;
    let securityIndex := indexFor securityLevel in
    ProfileSignatureSchemes inputData (size_t_of inputLength) securityIndex ;;
    ret 0.

End Harness.

Arguments Returned {lib A} a w.
Arguments Aborted {lib A} w.

(** ** Reading a run *)

(** Validation and verification results recorded in a trace. *)
Definition check_passed (c : call) : bool :=
  match c with
  | call_Validate_pub _ r => r
  | call_Validate_priv _ r => r
  | call_VerifyMessage _ _ _ r => r
  | _ => true
  end.

Definition checks_pass (tr : list call) : bool := forallb check_passed tr.

Definition is_failed_verify (c : call) : bool :=
  match c with
  | call_VerifyMessage _ _ _ r => negb r
  | _ => false
  end.

Definition verify_failed (tr : list call) : bool := existsb is_failed_verify tr.

Definition is_construction (c : call) : bool :=
  match c with
  | call_Signer _ _ => true
  | call_ECDSA_Signer _ => true
  | _ => false
  end.

(** The signer constructions of a trace, with their arguments. *)
Definition constructions (tr : list call) : list call := filter is_construction tr.

Definition is_now (c : call) : bool :=
  match c with
  | call_now _ => true
  | _ => false
  end.

(** A trace without its clock readings. *)
Definition untimed_trace (tr : list call) : list call :=
  filter (fun c => negb (is_now c)) tr.

(** A CSV line without its last field. *)
Definition untimed (line : string) : list string := removelast (fields line).

(** The lines a sequence of adapters writes: for each description a sign line
    and a verify line, as long as there are elapsed times left in [ds]. *)
Fixpoint csv_lines (descriptions : list string) (ds : list Z) : list string :=
  match descriptions, ds with
  | description :: rest, d1 :: d2 :: ds' =>
      generateCSVString description "sign" d1
      :: generateCSVString description "verify" d2
      :: csv_lines rest ds'
  | _, _ => []
  end.

(** The description each adapter builds, in the order the driver calls them. *)
Definition descriptions (secLevelIndex inputLength : Z) : list string :=
  let level := at_index securityLevels secLevelIndex in
  let len := int_of inputLength in
  [ generateDetailedDescription "RSA" level
      (at_index factorizationGroupSizes secLevelIndex) len;
    generateDetailedDescription "NR" level
      (at_index factorizationGroupSizes secLevelIndex) len;
    generateDetailedDescription "DSA" level
      (at_index factorizationGroupSizes secLevelIndex) len;
    generateDetailedDescription "LUC" level
      (at_index factorizationGroupSizes secLevelIndex) len;
    generateDetailedDescription "LUC-DL" level
      (at_index finiteFieldSizes secLevelIndex) len;
    generateDetailedDescription "Rabin" level
      (at_index factorizationGroupSizes secLevelIndex) len;
    generateDetailedDescription "RW" level
      (at_index factorizationGroupSizes secLevelIndex) len;
    generateDetailedDescription "ECDSA" level 1 len ].

Definition in_size_t (d : Z) : Prop := 0 <= d < 2 ^ 64.

(** ** Two small libraries to run the harness against *)

Module Toy.

(** The generator is a counter; a block is the counter's low byte. *)
Definition block (g size : Z) : list byte :=
  match Byte.of_N (Z.to_N (g mod 256)) with
  | Some b => repeat b (Z.to_nat size)
  | None => []
  end.

(** Every key validates; a signature is eight drawn bytes; [verifies]
    decides what verification answers. *)
Definition library (verifies : bool) : CryptoLib := {|
  rng_t := Z;
  SetKeyWithIV := fun _ key _ _ => Z.of_nat (List.length key);
  GenerateBlock := fun g size => (block g size, g + 1);
  signer := scheme * Z;
  verifier := scheme * Z;
  Signer_generate := fun s bits => Draw 16 (fun _ => Done (s, bits));
  Signer_of_vector := fun v => (ECDSA_EC2N_SHA, fst (fst (ec_field v)));
  Precompute := fun k => k;
  Verifier_of := fun _ k => k;
  Validate_pub := fun _ _ => Draw 4 (fun _ => Done true);
  Validate_priv := fun _ _ => Draw 4 (fun _ => Done true);
  MaxSignatureLength := fun _ => 8;
  SignMessage := fun _ _ _ => Draw 8 (fun b => Done (b, 8));
  VerifyMessage := fun _ _ _ _ _ => verifies
|}.

Definition sound : CryptoLib := library true.
Definition broken : CryptoLib := library false.

(** A clock that advances 7 ns per reading. *)
Definition clock (k : nat) : Z := 1000 + 7 * Z.of_nat k.

Definition start (l : CryptoLib) (g : @rng_t l) (input : string) : @world l :=
  {| cin := input; cout := []; s_globalRNG := g;
     steady_clock := clock; clock_reads := 0; trace := [] |}.

End Toy.

(** ** What is observed of a run *)

Definition is_block (c : call) : bool :=
  match c with
  | call_GenerateBlock _ _ => true
  | _ => false
  end.

Section Observations.

Context {lib : CryptoLib}.

(** What a routine answers, where it leaves the generator, and the blocks it
    drew, when started on generator state [g]. *)
Definition answer {A} (p : draw A) (g : rng_t) : A := fst (fst (run_draw p g [])).
Definition rng_after {A} (p : draw A) (g : rng_t) : rng_t := snd (fst (run_draw p g [])).
Definition drawn {A} (p : draw A) (g : rng_t) : list call := snd (run_draw p g []).

(** [w'] is [w] with [lines] written and [tr] called since; the input stream
    and the clock oracle are the same. *)
Definition grows (w w' : world) (lines : list string) (tr : list call) : Prop :=
  cout w' = (cout w ++ lines)%list
  /\ trace w' = (trace w ++ tr)%list
  /\ cin w' = cin w
  /\ steady_clock w' = steady_clock w.

(** The outcome of the timed protocol, and of an adapter: the lines are the
    sign and verify line of [description], both or none; the run returns
    exactly when every check passed; it is stopped either before the first
    line (a key failed validation) or after the second (the signature failed
    verification). *)
Definition profiled {A} (description : string) (ctors : list call)
    (w : world) (o : outcome A) : Prop :=
  exists ds tr,
    grows w (final o) (csv_lines [description] ds) tr
    /\ Forall in_size_t ds
    /\ constructions tr = ctors
    /\ match o with
       | Returned _ _ =>
           List.length ds = 2%nat /\ checks_pass tr = true
       | Aborted _ =>
           checks_pass tr = false
           /\ ((ds = [] /\ verify_failed tr = false)
               \/ (List.length ds = 2%nat /\ verify_failed tr = true))
       end.

(** The tail every adapter shares: profile, then [assert(pass)]. *)
Definition profile_and_assert (priv : signer) (pub : verifier)
    (input : list byte) (inputLength : Z) (description : string) : M bool :=
  bind (ProfileSignatureValidate priv pub input inputLength description false)
       (fun pass => bind (assert pass) (fun _ => ret pass)).

(** The outcome of a sequence of adapters: the lines are those of
    [descriptions], in order, cut where the run was stopped. *)
Definition sequenced {A} (descs : list string) (w : world) (o : outcome A) : Prop :=
  exists ds tr,
    grows w (final o) (csv_lines descs ds) tr
    /\ Forall in_size_t ds
    /\ match o with
       | Returned _ _ =>
           List.length ds = (2 * List.length descs)%nat /\ checks_pass tr = true
       | Aborted _ =>
           checks_pass tr = false
           /\ (List.length ds <= 2 * List.length descs)%nat
       end.

Definition field (i : nat) (line : string) : string := nth i (fields line) "".

Definition lines_since {A} (w : world) (o : outcome A) : list string :=
  skipn (List.length (cout w)) (cout (final o)).

Definition calls_since {A} (w : world) (o : outcome A) : list call :=
  skipn (List.length (trace w)) (trace (final o)).

(** The 16 byte string that seeds the generator, as key and as IV. *)
Definition seed_bytes (argv : list string) : list byte :=
  list_byte_of_string (resize 16 (nth 2 argv "")).

(** The world [main] hands to the driver: input read to its end, factories
    registered, generator keyed. *)
Definition seeded (argv : list string) (w : world) : world :=
  {| cin := ""; cout := cout w;
     s_globalRNG :=
       SetKeyWithIV (s_globalRNG w) (seed_bytes argv) 16 (seed_bytes argv);
     steady_clock := steady_clock w; clock_reads := clock_reads w;
     trace := (trace w ++ [call_RegisterFactories;
                           call_SetKeyWithIV (seed_bytes argv) 16 (seed_bytes argv)])%list |}.

Definition message_of (w : world) : string := strip_newlines (cin w).

Definition message_length (w : world) : Z :=
  size_t_of (int_of (Z.of_nat (String.length (message_of w)))).

(** Two worlds agree up to timing: same unread input, same generator state,
    same lines except for the last field of each, same calls except for the
    clock readings. *)
Definition sim (w1 w2 : world) : Prop :=
  cin w1 = cin w2
  /\ s_globalRNG w1 = s_globalRNG w2
  /\ map untimed (cout w1) = map untimed (cout w2)
  /\ untimed_trace (trace w1) = untimed_trace (trace w2).

Definition sim_outcome {A} (R : A -> A -> Prop) (o1 o2 : outcome A) : Prop :=
  match o1, o2 with
  | Returned a1 w1, Returned a2 w2 => R a1 a2 /\ sim w1 w2
  | Aborted w1, Aborted w2 => sim w1 w2
  | _, _ => False
  end.

(** Two computations keep worlds in agreement, with results related by [R]. *)
Definition simM {A} (R : A -> A -> Prop) (m1 m2 : M A) : Prop :=
  forall w1 w2, sim w1 w2 -> sim_outcome R (m1 w1) (m2 w2).

Definition any {A} (_ _ : A) : Prop := True.

End Observations.

Definition scheme_names : list string :=
  ["RSA"; "NR"; "DSA"; "LUC"; "LUC-DL"; "Rabin"; "RW"; "ECDSA"].

(** One sign line and one verify line per scheme. *)
Definition line_names : list string := flat_map (fun n => [n; n]) scheme_names.
Definition line_operations : list string :=
  flat_map (fun _ => ["sign"; "verify"]) scheme_names.

(** The lines of standard input, split at the newline characters. *)
Fixpoint input_lines (s : string) : list string :=
  match s with
  | EmptyString => [EmptyString]
  | String c r =>
      if Ascii.eqb c newline then EmptyString :: input_lines r
      else match input_lines r with
           | l :: ls => String c l :: ls
           | [] => [String c EmptyString]
           end
  end.

(** The world [w] run against another clock. *)
Definition at_clock {lib : CryptoLib} (w : world) (clock : nat -> Z) (reads : nat)
  : world :=
  {| cin := cin w; cout := cout w; s_globalRNG := s_globalRNG w;
     steady_clock := clock; clock_reads := reads; trace := trace w |}.

(** The blocks drawn from the generator, in order. *)
Definition blocks_drawn (tr : list call) : list call := filter is_block tr.

(** ** Reading lines and traces back *)

(** The integer a decimal numeral stands for. *)
Definition from_string (s : string) : option Z :=
  option_map Z.of_int (NilZero.int_of_string s).

(** The six values of a line. *)
Record csv_record : Type := {
  algorithmName : string;
  securityLevelBits : Z;
  parameterMagnitude : Z;
  inputLengthBytes : Z;
  operationName : string;
  elapsedNanoseconds : Z
}.

Definition parse_line (line : string) : option csv_record :=
  match fields line with
  | [a; l; k; n; op; d] =>
      match from_string l, from_string k, from_string n, from_string d with
      | Some l', Some k', Some n', Some d' =>
          Some {| algorithmName := a; securityLevelBits := l';
                  parameterMagnitude := k'; inputLengthBytes := n';
                  operationName := op; elapsedNanoseconds := d' |}
      | _, _, _, _ => None
      end
  | _ => None
  end.

(** The name and the reported magnitude of each adapter, in driver order. *)
Definition scheme_rows (secLevelIndex : Z) : list (string * Z) :=
  [ ("RSA", at_index factorizationGroupSizes secLevelIndex);
    ("NR", at_index factorizationGroupSizes secLevelIndex);
    ("DSA", at_index factorizationGroupSizes secLevelIndex);
    ("LUC", at_index factorizationGroupSizes secLevelIndex);
    ("LUC-DL", at_index finiteFieldSizes secLevelIndex);
    ("Rabin", at_index factorizationGroupSizes secLevelIndex);
    ("RW", at_index factorizationGroupSizes secLevelIndex);
    ("ECDSA", 1) ].

Definition is_SetKeyWithIV (c : call) : bool :=
  match c with
  | call_SetKeyWithIV _ _ _ => true
  | _ => false
  end.

Definition is_validation (c : call) : bool :=
  match c with
  | call_Validate_pub _ _ => true
  | call_Validate_priv _ _ => true
  | _ => false
  end.

(** The calls the driver may make on message [input] of length
    [inputLength]: it never keys the generator or registers factories, it
    validates at level 2 only, and it signs and verifies that message only. *)
Definition driver_call (input : list byte) (inputLength : Z) (c : call) : Prop :=
  match c with
  | call_RegisterFactories => False
  | call_SetKeyWithIV _ _ _ => False
  | call_Validate_pub level _ => level = 2
  | call_Validate_priv level _ => level = 2
  | call_SignMessage i n _ => i = input /\ n = inputLength
  | call_VerifyMessage i n _ _ => i = input /\ n = inputLength
  | _ => True
  end.

Section Protocol.

Context {lib : CryptoLib}.

(** A computation whose calls all satisfy [P]. *)
Definition calls_only {A} (P : call -> Prop) (m : M A) : Prop :=
  forall w, exists tr,
    trace (final (m w)) = (trace w ++ tr)%list /\ Forall P tr.

Definition validation_level (thorough : bool) : Z := if thorough then 3 else 2.

(** What the library answers when the protocol, started in world [w],
    validates the public key, and where that leaves the generator. *)
Definition pub_valid (pub : verifier) (thorough : bool) (w : world) : bool :=
  answer (Validate_pub pub (validation_level thorough)) (s_globalRNG w).

Definition rng_after_pub (pub : verifier) (thorough : bool) (w : world) : rng_t :=
  rng_after (Validate_pub pub (validation_level thorough)) (s_globalRNG w).

(** What it answers for the private key, validated next. *)
Definition priv_valid (priv : signer) (pub : verifier) (thorough : bool)
    (w : world) : bool :=
  answer (Validate_priv priv (validation_level thorough))
         (rng_after_pub pub thorough w).

(** The [k]-th clock reading from world [w] on. *)
Definition reading (w : world) (k : nat) : Z :=
  steady_clock w (clock_reads w + k)%nat.

(** World [w] with [s] on standard input. *)
Definition with_cin (w : world) (s : string) : world :=
  {| cin := s; cout := cout w; s_globalRNG := s_globalRNG w;
     steady_clock := steady_clock w; clock_reads := clock_reads w;
     trace := trace w |}.

End Protocol.

(** A line one of the adapters can write for table index [secLevelIndex]
    and a message of [inputLength] bytes. *)
Definition run_line (secLevelIndex inputLength : Z) (line : string) : Prop :=
  exists name magnitude operation d,
    In (name, magnitude) (scheme_rows secLevelIndex)
    /\ (operation = "sign" \/ operation = "verify")
    /\ in_size_t d
    /\ line = generateCSVString
                (generateDetailedDescription name
                   (at_index securityLevels secLevelIndex) magnitude
                   (int_of inputLength))
                operation d.

(** A library whose key validations answer as told. *)
Module ToyKeys.

Definition library (pub_ok priv_ok : bool) : CryptoLib := {|
  rng_t := Z;
  SetKeyWithIV := fun _ key _ _ => Z.of_nat (List.length key);
  GenerateBlock := fun g size => (Toy.block g size, g + 1);
  signer := scheme * Z;
  verifier := scheme * Z;
  Signer_generate := fun s bits => Draw 16 (fun _ => Done (s, bits));
  Signer_of_vector := fun v => (ECDSA_EC2N_SHA, fst (fst (ec_field v)));
  Precompute := fun k => k;
  Verifier_of := fun _ k => k;
  Validate_pub := fun _ _ => Draw 4 (fun _ => Done pub_ok);
  Validate_priv := fun _ _ => Draw 4 (fun _ => Done priv_ok);
  MaxSignatureLength := fun _ => 8;
  SignMessage := fun _ _ _ => Draw 8 (fun b => Done (b, 8));
  VerifyMessage := fun _ _ _ _ _ => true
|}.

Definition start (l : CryptoLib) (g : @rng_t l) (input : string) : @world l :=
  {| cin := input; cout := []; s_globalRNG := g;
     steady_clock := Toy.clock; clock_reads := 0; trace := [] |}.

End ToyKeys.

(** * Properties *)

(** ** The model at work *)

Example atoi_128 : atoi "128" = 128.
Proof. reflexivity. Qed.

Example atoi_signed_with_rest :
  atoi (String " " "-12x") = -12 /\ atoi "abc" = 0 /\ atoi "+7" = 7.
Proof. repeat split; reflexivity. Qed.

Example unknown_level_falls_back : indexFor (atoi "999") = 0.
Proof. reflexivity. Qed.

Example resize_pads_and_truncates :
  resize 4 "ab" = String "a" (String "b" (String Ascii.zero (String Ascii.zero "")))
  /\ resize 2 "abcd" = "ab".
Proof. split; reflexivity. Qed.

Example read_all_two_lines :
  read_all (String "a" (String newline (String "b" (String newline EmptyString))))
  = ("ab", "").
Proof. reflexivity. Qed.

Example csv_example :
  generateCSVString (generateDetailedDescription "RSA" 128 3072 5) "sign" 42
  = "RSA,128,3072,5,sign,42".
Proof. reflexivity. Qed.

Example fields_example :
  fields "RSA,128,3072,5,sign,42" = ["RSA"; "128"; "3072"; "5"; "sign"; "42"].
Proof. reflexivity. Qed.

Example toy_run_hello :
  cout (final (main (lib := Toy.sound) ["verifier"; "128"; "0123456789abcdef"]
                 (Toy.start Toy.sound 0 "hello")))
  = [ "RSA,128,3072,5,sign,7"; "RSA,128,3072,5,verify,7";
      "NR,128,3072,5,sign,7"; "NR,128,3072,5,verify,7";
      "DSA,128,3072,5,sign,7"; "DSA,128,3072,5,verify,7";
      "LUC,128,3072,5,sign,7"; "LUC,128,3072,5,verify,7";
      "LUC-DL,128,3072,5,sign,7"; "LUC-DL,128,3072,5,verify,7";
      "Rabin,128,3072,5,sign,7"; "Rabin,128,3072,5,verify,7";
      "RW,128,3072,5,sign,7"; "RW,128,3072,5,verify,7";
      "ECDSA,128,1,5,sign,7"; "ECDSA,128,1,5,verify,7" ].
Proof. vm_compute. reflexivity. Qed.

(** ** Strings, fields and numerals *)

Lemma append_assoc (a b c : string) : (a ++ b) ++ c = a ++ (b ++ c).
Proof. induction a as [|x a IH]; simpl; [reflexivity | now rewrite IH]. Qed.

Lemma append_nil_r (a : string) : a ++ "" = a.
Proof. induction a as [|x a IH]; simpl; [reflexivity | now rewrite IH]. Qed.

Lemma fields_nonempty (s : string) : fields s <> [].
Proof.
  destruct s as [|c r]; simpl; [discriminate|].
  destruct (Ascii.eqb c comma); [discriminate|].
  destruct (fields r); discriminate.
Qed.

Lemma fields_app_comma (p q : string) :
  fields (p ++ String comma q) = (fields p ++ fields q)%list.
Proof.
  induction p as [|c p IH]; simpl.
  - reflexivity.
  - destruct (Ascii.eqb c comma).
    + now rewrite IH.
    + rewrite IH. destruct (fields p) as [|f fs] eqn:E.
      * now apply fields_nonempty in E.
      * reflexivity.
Qed.

Lemma fields_no_comma (s : string) : no_comma s = true -> fields s = [s].
Proof.
  induction s as [|c r IH]; simpl; [reflexivity|].
  intros H. apply andb_prop in H as [Hc Hr].
  apply negb_true_iff in Hc. rewrite Hc, (IH Hr). reflexivity.
Qed.

Lemma uint_string_no_comma (u : uint) : no_comma (NilEmpty.string_of_uint u) = true.
Proof. induction u; simpl; auto. Qed.

Lemma uint_string_all_digits (u : uint) : all_digits (NilEmpty.string_of_uint u) = true.
Proof. induction u; simpl; auto. Qed.

Lemma to_string_no_comma (z : Z) : no_comma (to_string z) = true.
Proof.
  unfold to_string, NilZero.string_of_int, NilZero.string_of_uint.
  destruct (Z.to_int z) as [u|u]; destruct u; simpl;
    auto using uint_string_no_comma.
Qed.

Lemma to_string_numeral (z : Z) : 0 <= z -> is_numeral (to_string z) = true.
Proof.
  intros Hz. unfold to_string.
  destruct z as [|p|p]; [reflexivity | | lia].
  simpl. unfold NilZero.string_of_uint.
  destruct (Pos.to_uint p); simpl; auto using uint_string_all_digits.
Qed.

Lemma generateCSVString_eq (description operation : string) (delta : Z) :
  generateCSVString description operation delta
  = description ++ "," ++ operation ++ "," ++ to_string delta.
Proof.
  unfold generateCSVString. simpl. now rewrite !append_assoc.
Qed.

Lemma generateDetailedDescription_eq (algorithmName : string) (l k n : Z) :
  generateDetailedDescription algorithmName l k n
  = algorithmName ++ "," ++ to_string l ++ "," ++ to_string k ++ "," ++ to_string n.
Proof.
  unfold generateDetailedDescription. simpl. now rewrite !append_assoc.
Qed.

Lemma fields_csv (description operation : string) (delta : Z) :
  fields (generateCSVString description operation delta)
  = (fields description ++ fields operation ++ [to_string delta])%list.
Proof.
  rewrite generateCSVString_eq. simpl.
  rewrite !fields_app_comma.
  now rewrite (fields_no_comma _ (to_string_no_comma delta)).
Qed.

Lemma fields_description (algorithmName : string) (l k n : Z) :
  no_comma algorithmName = true ->
  fields (generateDetailedDescription algorithmName l k n)
  = [algorithmName; to_string l; to_string k; to_string n].
Proof.
  intros Hn. rewrite generateDetailedDescription_eq. simpl.
  rewrite !fields_app_comma.
  now rewrite !fields_no_comma by auto using to_string_no_comma.
Qed.

Lemma untimed_csv (description operation : string) (delta : Z) :
  untimed (generateCSVString description operation delta)
  = (fields description ++ fields operation)%list.
Proof.
  unfold untimed. rewrite fields_csv, app_assoc. apply removelast_last.
Qed.

(** C2. The CSV line is [<description>,<operationName>,<elapsedNanoseconds>],
    the description is
    [<algorithmName>,<securityLevelBits>,<parameterMagnitude>,<inputLength>],
    and a full line, whose algorithm and operation names hold no comma, splits
    into exactly these six fields. *)
Theorem C2_csv_line_shape :
  (forall description operationName elapsedNanoseconds,
      generateCSVString description operationName elapsedNanoseconds
      = description ++ "," ++ operationName ++ "," ++ to_string elapsedNanoseconds)
  /\ (forall algorithmName securityLevelBits parameterMagnitude inputLength,
      generateDetailedDescription algorithmName securityLevelBits
        parameterMagnitude inputLength
      = algorithmName ++ "," ++ to_string securityLevelBits ++ ","
        ++ to_string parameterMagnitude ++ "," ++ to_string inputLength)
  /\ (forall algorithmName securityLevelBits parameterMagnitude inputLength
             operationName elapsedNanoseconds,
      no_comma algorithmName = true ->
      no_comma operationName = true ->
      fields (generateCSVString
                (generateDetailedDescription algorithmName securityLevelBits
                   parameterMagnitude inputLength)
                operationName elapsedNanoseconds)
      = [ algorithmName; to_string securityLevelBits;
          to_string parameterMagnitude; to_string inputLength;
          operationName; to_string elapsedNanoseconds ]).
Proof.
  split; [exact generateCSVString_eq|].
  split; [exact generateDetailedDescription_eq|].
  intros a l k n op d Ha Hop.
  rewrite fields_csv, (fields_description _ _ _ _ Ha), (fields_no_comma _ Hop).
  reflexivity.
Qed.

Lemma C2_csv_line_shape_witness :
  fields (generateCSVString (generateDetailedDescription "RSA" 128 3072 5) "sign" 42)
  = ["RSA"; "128"; "3072"; "5"; "sign"; "42"].
Proof.
  exact (proj2 (proj2 C2_csv_line_shape) "RSA" 128 3072 5 "sign" 42
           eq_refl eq_refl).
Defined.

(** ** The security level lookup *)

Lemma indexFor_cases (z : Z) :
  indexFor z =
  if z =? 80 then 0 else if z =? 112 then 1 else if z =? 128 then 2
  else if z =? 192 then 3 else if z =? 256 then 4 else 0.
Proof.
  unfold indexFor.
  change (lookup_loop 6 0 z 0) with
    (if 80 =? z then 0 else if 112 =? z then 1 else if 128 =? z then 2
     else if 192 =? z then 3 else if 256 =? z then 4 else 0).
  now rewrite !(Z.eqb_sym _ z).
Qed.

(** C3. The lookup returns the position of the first exact match in the
    five entry table, which is 0, 1, 2, 3, 4 for 80, 112, 128, 192, 256, and
    it returns 0, without any error, for every integer not in the table. *)
Theorem C3_indexFor_lookup (strengthBits : Z) :
  indexFor strengthBits = spec_indexFor strengthBits
  /\ securityLevels = [80; 112; 128; 192; 256]
  /\ indexFor 80 = 0 /\ indexFor 112 = 1 /\ indexFor 128 = 2
  /\ indexFor 192 = 3 /\ indexFor 256 = 4
  /\ (In strengthBits securityLevels \/ indexFor strengthBits = 0).
Proof.
  split.
  { rewrite indexFor_cases. unfold spec_indexFor.
    change (first_exact_match securityLevels strengthBits 0) with
      (if 80 =? strengthBits then Some 0 else if 112 =? strengthBits then Some 1
       else if 128 =? strengthBits then Some 2
       else if 192 =? strengthBits then Some 3
       else if 256 =? strengthBits then Some 4 else None).
    rewrite !(Z.eqb_sym _ strengthBits).
    repeat (destruct (strengthBits =? _); [reflexivity|]). reflexivity. }
  repeat (split; [reflexivity|]).
  rewrite indexFor_cases. unfold securityLevels.
  destruct (Z.eqb_spec strengthBits 80) as [->|_]; [left; simpl; tauto|].
  destruct (Z.eqb_spec strengthBits 112) as [->|_]; [left; simpl; tauto|].
  destruct (Z.eqb_spec strengthBits 128) as [->|_]; [left; simpl; tauto|].
  destruct (Z.eqb_spec strengthBits 192) as [->|_]; [left; simpl; tauto|].
  destruct (Z.eqb_spec strengthBits 256) as [->|_]; [left; simpl; tauto|].
  right; reflexivity.
Qed.

(** ** Reading the input *)

Lemma take_line_spec (s : string) :
  (String.length (snd (take_line s)) <= String.length s)%nat
  /\ strip_newlines s = fst (take_line s) ++ strip_newlines (snd (take_line s)).
Proof.
  induction s as [|c r [IHl IHs]]; simpl; [auto|].
  destruct (Ascii.eqb c newline); simpl; [auto|].
  destruct (take_line r) as [l rest]; simpl in *.
  split; [lia | now rewrite IHs].
Qed.

Lemma read_loop_spec (fuel : nat) :
  forall cin fullLine, (String.length cin < fuel)%nat ->
    read_loop fuel cin fullLine = (fullLine ++ strip_newlines cin, "").
Proof.
  induction fuel as [|fuel IH]; intros s acc Hlen; [lia|].
  destruct s as [|c r]; simpl.
  - now rewrite append_nil_r.
  - destruct (take_line_spec r) as [Hl Hs].
    destruct (Ascii.eqb c newline).
    + rewrite IH by (simpl in Hlen; lia). now rewrite append_nil_r.
    + destruct (take_line r) as [l rest]; simpl in *.
      rewrite IH by lia. rewrite append_assoc, Hs. reflexivity.
Qed.

Lemma read_all_spec (s : string) : read_all s = (strip_newlines s, "").
Proof. unfold read_all. now rewrite read_loop_spec by lia. Qed.

(** ** Library routines and the generator *)

Section Runs.

Context {lib : CryptoLib}.

Lemma run_draw_app {A} (p : draw A) :
  forall g tr, run_draw p g tr = (answer p g, rng_after p g, (tr ++ drawn p g)%list).
Proof.
  unfold answer, rng_after, drawn.
  induction p as [a | n k IH]; intros g tr; simpl.
  - now rewrite app_nil_r.
  - destruct (GenerateBlock g n) as [block g'].
    rewrite (IH block g' (tr ++ [call_GenerateBlock n block])%list).
    rewrite (IH block g' [call_GenerateBlock n block]).
    simpl. now rewrite <- app_assoc.
Qed.

Lemma drawn_blocks {A} (p : draw A) :
  forall g, forallb is_block (drawn p g) = true.
Proof.
  unfold drawn.
  induction p as [a | n k IH]; intros g; simpl; [reflexivity|].
  destruct (GenerateBlock g n) as [block g'].
  rewrite run_draw_app. simpl. apply IH.
Qed.

Lemma blocks_checks_pass (bl : list call) :
  forallb is_block bl = true -> checks_pass bl = true.
Proof.
  induction bl as [|c bl IH]; simpl; [reflexivity|].
  destruct c; simpl; try discriminate; exact IH.
Qed.

Lemma blocks_no_failed_verify (bl : list call) :
  forallb is_block bl = true -> verify_failed bl = false.
Proof.
  induction bl as [|c bl IH]; simpl; [reflexivity|].
  destruct c; simpl; try discriminate; exact IH.
Qed.

Lemma blocks_no_construction (bl : list call) :
  forallb is_block bl = true -> constructions bl = [].
Proof.
  induction bl as [|c bl IH]; simpl; [reflexivity|].
  destruct c; simpl; try discriminate; exact IH.
Qed.

Lemma blocks_untimed (bl : list call) :
  forallb is_block bl = true -> untimed_trace bl = bl.
Proof.
  induction bl as [|c bl IH]; simpl; [reflexivity|].
  destruct c; simpl; try discriminate. intros H. now rewrite (IH H).
Qed.

Lemma checks_pass_app (t1 t2 : list call) :
  checks_pass (t1 ++ t2) = checks_pass t1 && checks_pass t2.
Proof. apply forallb_app. Qed.

Lemma verify_failed_app (t1 t2 : list call) :
  verify_failed (t1 ++ t2) = verify_failed t1 || verify_failed t2.
Proof. apply existsb_app. Qed.

Lemma constructions_app (t1 t2 : list call) :
  constructions (t1 ++ t2) = (constructions t1 ++ constructions t2)%list.
Proof. apply filter_app. Qed.

Lemma untimed_trace_app (t1 t2 : list call) :
  untimed_trace (t1 ++ t2) = (untimed_trace t1 ++ untimed_trace t2)%list.
Proof. apply filter_app. Qed.

Lemma drawn_checks_pass {A} (p : draw A) g : checks_pass (drawn p g) = true.
Proof. apply blocks_checks_pass, drawn_blocks. Qed.

Lemma drawn_no_failed_verify {A} (p : draw A) g : verify_failed (drawn p g) = false.
Proof. apply blocks_no_failed_verify, drawn_blocks. Qed.

Lemma drawn_no_construction {A} (p : draw A) g : constructions (drawn p g) = [].
Proof. apply blocks_no_construction, drawn_blocks. Qed.

Lemma drawn_untimed {A} (p : draw A) g : untimed_trace (drawn p g) = drawn p g.
Proof. apply blocks_untimed, drawn_blocks. Qed.

Lemma nanoseconds_in_size_t (t0 t1 : Z) : in_size_t (nanoseconds t0 t1).
Proof. unfold in_size_t, nanoseconds, size_t_of. apply Z.mod_pos_bound. lia. Qed.

(** ** What a run adds to the world *)

Lemma grows_trans w w1 w2 l1 t1 l2 t2 :
  grows w w1 l1 t1 -> grows w1 w2 l2 t2 -> grows w w2 (l1 ++ l2) (t1 ++ t2).
Proof.
  intros (A1 & A2 & A3 & A4) (B1 & B2 & B3 & B4).
  repeat split.
  - now rewrite B1, A1, app_assoc.
  - now rewrite B2, A2, app_assoc.
  - congruence.
  - congruence.
Qed.

Lemma csv_lines_nil_r (descs : list string) : csv_lines descs [] = [].
Proof. destruct descs; reflexivity. Qed.

Lemma csv_lines_cons (desc : string) (rest : list string) (ds1 ds2 : list Z) :
  List.length ds1 = 2%nat ->
  csv_lines (desc :: rest) (ds1 ++ ds2)
  = (csv_lines [desc] ds1 ++ csv_lines rest ds2)%list.
Proof.
  destruct ds1 as [|a [|b [|c ds1]]]; try discriminate. intros _.
  simpl. now destruct rest.
Qed.

Lemma csv_lines_short (desc : string) (rest : list string) (ds : list Z) :
  (List.length ds <= 2)%nat ->
  csv_lines (desc :: rest) ds = csv_lines [desc] ds.
Proof.
  destruct ds as [|a [|b [|c ds]]]; simpl; try reflexivity; try lia.
  intros _. now rewrite csv_lines_nil_r.
Qed.

Ltac run_once :=
  cbv beta iota zeta delta
    [bind with_GlobalRNG call_out log now print_line
     assert ret new_Signer new_Verifier andb negb];
  rewrite ?run_draw_app;
  cbn [cout cin trace s_globalRNG steady_clock clock_reads final fst snd].

Ltac run_step := repeat (progress run_once).

Ltac trace_facts :=
  rewrite ?checks_pass_app, ?verify_failed_app, ?constructions_app,
          ?drawn_checks_pass, ?drawn_no_failed_verify, ?drawn_no_construction;
  cbn [checks_pass verify_failed constructions forallb existsb filter
       check_passed is_failed_verify is_construction andb orb negb app].

Ltac grows_tac :=
  unfold grows;
  cbn [csv_lines final cout trace cin steady_clock];
  split;
    [ first [ symmetry; apply app_nil_r | rewrite <- ?app_assoc; reflexivity ]
    | split; [ rewrite <- ?app_assoc; reflexivity | split; reflexivity ] ].

Ltac profiled_tac :=
  split; [grows_tac|];
  split; [auto using nanoseconds_in_size_t|];
  split; [trace_facts; reflexivity|];
  trace_facts; auto.

Lemma ProfileSignatureValidate_spec priv pub input inputLength description thorough w :
  profiled description [] w
    (ProfileSignatureValidate priv pub input inputLength description thorough w)
  /\ forall b w',
      ProfileSignatureValidate priv pub input inputLength description thorough w
      = Returned b w' -> b = true.
Proof.
  unfold profiled, ProfileSignatureValidate. run_step.
  set (level := if thorough then 3 else 2).
  destruct (answer (Validate_pub pub level) (s_globalRNG w)) eqn:Epub; run_step.
  2:{ split; [|discriminate]. eexists [], _. profiled_tac. }
  match goal with
  | |- context [answer (Validate_priv priv level) ?g] =>
      destruct (answer (Validate_priv priv level) g) eqn:Epriv
  end; run_step.
  2:{ split; [|discriminate]. eexists [], _. profiled_tac. }
  match goal with
  | |- context [VerifyMessage ?v ?i ?l ?s ?sl] =>
      destruct (VerifyMessage v i l s sl) eqn:Ever
  end; run_step.
  - split; [|intros b w' H; now inversion H].
    eexists [_; _], _. profiled_tac.
  - split; [|discriminate].
    eexists [_; _], _. profiled_tac.
Qed.

Lemma profile_and_assert_spec priv pub input inputLength description w :
  profiled description [] w
    (profile_and_assert priv pub input inputLength description w).
Proof.
  destruct (ProfileSignatureValidate_spec priv pub input inputLength
              description false w) as [H Hpass].
  unfold profile_and_assert, bind.
  destruct (ProfileSignatureValidate _ _ _ _ _ _ w) as [b w'|w'].
  - rewrite (Hpass b w' eq_refl). exact H.
  - exact H.
Qed.

Lemma profiled_prefix {A} description ctors w w1 pre (o : outcome A) :
  grows w w1 [] pre ->
  checks_pass pre = true ->
  verify_failed pre = false ->
  constructions pre = ctors ->
  profiled description [] w1 o ->
  profiled description ctors w o.
Proof.
  intros Hg Hc Hv Hk (ds & tr & Hg' & Hds & Hk' & Ho).
  exists ds, (pre ++ tr)%list.
  split; [exact (grows_trans _ _ _ _ _ _ _ Hg Hg')|].
  split; [exact Hds|].
  split; [now rewrite constructions_app, Hk, Hk', app_nil_r|].
  rewrite checks_pass_app, verify_failed_app, Hc, Hv. exact Ho.
Qed.

Ltac adapter_tac :=
  run_step;
  eapply profiled_prefix; [ | | | | apply profile_and_assert_spec ];
  [ grows_tac | trace_facts; reflexivity | trace_facts; reflexivity
  | trace_facts; reflexivity ].

Lemma ValidateRSA_spec input inputLength secLevelIndex w :
  profiled
    (generateDetailedDescription "RSA" (at_index securityLevels secLevelIndex)
       (at_index factorizationGroupSizes secLevelIndex) (int_of inputLength))
    [call_Signer RSASSA_PKCS1v15_MD2 (at_index factorizationGroupSizes secLevelIndex)]
    w (ValidateRSA input inputLength secLevelIndex w).
Proof. unfold ValidateRSA. adapter_tac. Qed.

Lemma ValidateNR_spec input inputLength secLevelIndex w :
  profiled
    (generateDetailedDescription "NR" (at_index securityLevels secLevelIndex)
       (at_index factorizationGroupSizes secLevelIndex) (int_of inputLength))
    [call_Signer NR_SHA (at_index finiteFieldSubgroupSizes secLevelIndex)]
    w (ValidateNR input inputLength secLevelIndex w).
Proof. unfold ValidateNR. adapter_tac. Qed.

Lemma ValidateDSA_spec input inputLength secLevelIndex w :
  profiled
    (generateDetailedDescription "DSA" (at_index securityLevels secLevelIndex)
       (at_index factorizationGroupSizes secLevelIndex) (int_of inputLength))
    [call_Signer DSA (at_index factorizationGroupSizes secLevelIndex)]
    w (ValidateDSA input inputLength secLevelIndex w).
Proof. unfold ValidateDSA. adapter_tac. Qed.

Lemma ValidateLUC_spec input inputLength secLevelIndex w :
  profiled
    (generateDetailedDescription "LUC" (at_index securityLevels secLevelIndex)
       (at_index factorizationGroupSizes secLevelIndex) (int_of inputLength))
    [call_Signer LUCSSA_PKCS1v15_SHA (at_index factorizationGroupSizes secLevelIndex)]
    w (ValidateLUC input inputLength secLevelIndex w).
Proof. unfold ValidateLUC. adapter_tac. Qed.

Lemma ValidateLUC_DL_spec input inputLength secLevelIndex w :
  profiled
    (generateDetailedDescription "LUC-DL" (at_index securityLevels secLevelIndex)
       (at_index finiteFieldSizes secLevelIndex) (int_of inputLength))
    [call_Signer LUC_HMP_SHA (at_index finiteFieldSizes secLevelIndex)]
    w (ValidateLUC_DL input inputLength secLevelIndex w).
Proof. unfold ValidateLUC_DL. adapter_tac. Qed.

Lemma ValidateRabin_spec input inputLength secLevelIndex w :
  profiled
    (generateDetailedDescription "Rabin" (at_index securityLevels secLevelIndex)
       (at_index factorizationGroupSizes secLevelIndex) (int_of inputLength))
    [call_Signer RabinSS_PSSR_SHA (at_index factorizationGroupSizes secLevelIndex)]
    w (ValidateRabin input inputLength secLevelIndex w).
Proof. unfold ValidateRabin. adapter_tac. Qed.

Lemma ValidateRW_spec input inputLength secLevelIndex w :
  profiled
    (generateDetailedDescription "RW" (at_index securityLevels secLevelIndex)
       (at_index factorizationGroupSizes secLevelIndex) (int_of inputLength))
    [call_Signer RWSS_PSSR_SHA (at_index factorizationGroupSizes secLevelIndex)]
    w (ValidateRW input inputLength secLevelIndex w).
Proof. unfold ValidateRW. adapter_tac. Qed.

Lemma ValidateECDSA_spec input inputLength secLevelIndex w :
  profiled
    (generateDetailedDescription "ECDSA" (at_index securityLevels secLevelIndex)
       1 (int_of inputLength))
    [call_ECDSA_Signer P1363_vector]
    w (ValidateECDSA input inputLength secLevelIndex w).
Proof. unfold ValidateECDSA. adapter_tac. Qed.

(** ** The driver *)

Lemma sequenced_nil {A} (a : A) w : sequenced [] w (ret a w).
Proof.
  exists [], []. split; [|split; [constructor | split; reflexivity]].
  unfold grows, ret. cbn [final csv_lines]. now rewrite !app_nil_r.
Qed.

Lemma sequenced_cons {A} desc ctors descs (m : M bool) (k : M A) w :
  (forall w0, profiled desc ctors w0 (m w0)) ->
  (forall w0, sequenced descs w0 (k w0)) ->
  sequenced (desc :: descs) w (bind m (fun _ => k) w).
Proof.
  intros Hm Hk. unfold bind.
  destruct (Hm w) as (ds1 & tr1 & Hg1 & Hds1 & _ & Ho1).
  destruct (m w) as [b w1|w1]; cbn [final] in Hg1.
  - destruct Ho1 as [Hlen1 Hc1].
    destruct (Hk w1) as (ds2 & tr2 & Hg2 & Hds2 & Ho2).
    exists (ds1 ++ ds2)%list, (tr1 ++ tr2)%list.
    split; [rewrite (csv_lines_cons _ _ _ _ Hlen1);
            exact (grows_trans _ _ _ _ _ _ _ Hg1 Hg2)|].
    split; [apply Forall_app; auto|].
    rewrite checks_pass_app, Hc1, length_app, Hlen1. cbn [andb List.length].
    destruct (k w1); destruct Ho2 as [H1 H2]; split; auto; lia.
  - destruct Ho1 as [Hc1 Hcase].
    assert (Hlen : (List.length ds1 <= 2)%nat)
      by (destruct Hcase as [[-> _]|[-> _]]; simpl; lia).
    exists ds1, tr1.
    split; [rewrite (csv_lines_short _ _ _ Hlen); exact Hg1|].
    split; [exact Hds1|].
    split; [exact Hc1 | cbn [List.length]; lia].
Qed.

Lemma ProfileSignatureSchemes_spec inputData inputLength securityLevel w :
  sequenced (descriptions securityLevel inputLength) w
    (ProfileSignatureSchemes inputData inputLength securityLevel w).
Proof.
  unfold ProfileSignatureSchemes, descriptions.
  eapply sequenced_cons; [intro; apply ValidateRSA_spec | intro].
  eapply sequenced_cons; [intro; apply ValidateNR_spec | intro].
  eapply sequenced_cons; [intro; apply ValidateDSA_spec | intro].
  eapply sequenced_cons; [intro; apply ValidateLUC_spec | intro].
  eapply sequenced_cons; [intro; apply ValidateLUC_DL_spec | intro].
  eapply sequenced_cons; [intro; apply ValidateRabin_spec | intro].
  eapply sequenced_cons; [intro; apply ValidateRW_spec | intro].
  eapply sequenced_cons; [intro; apply ValidateECDSA_spec | intro].
  apply sequenced_nil.
Qed.

(** ** main *)

Lemma skipn_length_app {X} (l1 l2 : list X) : skipn (List.length l1) (l1 ++ l2) = l2.
Proof. induction l1; simpl; auto. Qed.

Lemma grows_since {A} w (o : outcome A) lines tr :
  grows w (final o) lines tr -> lines_since w o = lines /\ calls_since w o = tr.
Proof.
  intros (H1 & H2 & _). unfold lines_since, calls_since.
  now rewrite H1, H2, !skipn_length_app.
Qed.

Lemma verify_failed_checks (tr : list call) :
  verify_failed tr = true -> checks_pass tr = false.
Proof.
  induction tr as [|c tr IH]; simpl; [discriminate|].
  destruct c; simpl; auto.
  - destruct result; simpl; auto.
  - destruct result; simpl; auto.
  - destruct result; simpl; auto.
Qed.

Lemma main_eq argv w :
  Z.of_nat (List.length argv) = 3 ->
  main argv w
  = bind (ProfileSignatureSchemes (list_byte_of_string (message_of w))
            (message_length w) (indexFor (atoi (nth 1 argv ""))))
         (fun _ => ret 0) (seeded argv w).
Proof.
  intros Hargc. unfold main. rewrite Hargc.
  change (negb (3 =? 3)) with false. cbv iota.
  unfold read_cin, GlobalRNG_SetKeyWithIV, seeded, message_length, message_of,
    seed_bytes.
  run_step. rewrite read_all_spec. run_step.
  rewrite <- app_assoc. reflexivity.
Qed.

Lemma main_spec argv w :
  Z.of_nat (List.length argv) = 3 ->
  exists ds tr,
    cout (final (main argv w))
    = (cout w ++ csv_lines
         (descriptions (indexFor (atoi (nth 1 argv ""))) (message_length w)) ds)%list
    /\ trace (final (main argv w))
      = (trace w ++ call_RegisterFactories
           :: call_SetKeyWithIV (seed_bytes argv) 16 (seed_bytes argv) :: tr)%list
    /\ cin (final (main argv w)) = ""
    /\ Forall in_size_t ds
    /\ match main argv w with
       | Returned code _ =>
           code = 0 /\ List.length ds = 16%nat /\ checks_pass tr = true
       | Aborted _ => checks_pass tr = false /\ (List.length ds <= 16)%nat
       end.
Proof.
  intros Hargc. rewrite (main_eq _ _ Hargc). unfold bind, ret.
  destruct (ProfileSignatureSchemes_spec (list_byte_of_string (message_of w))
              (message_length w) (indexFor (atoi (nth 1 argv ""))) (seeded argv w))
    as (ds & tr & (G1 & G2 & G3 & G4) & Hds & Ho).
  destruct (ProfileSignatureSchemes _ _ _ (seeded argv w)) as [[] w2|w2];
    cbn [final seeded cout trace cin] in *;
    exists ds, tr; rewrite G1, G2, G3, <- !app_assoc;
    repeat split; auto; tauto.
Qed.

End Runs.

(** ** The lines of a run, field by field *)

Lemma fields_line (algorithmName : string) (l k n : Z) (operation : string) (d : Z) :
  no_comma algorithmName = true ->
  no_comma operation = true ->
  fields (generateCSVString (generateDetailedDescription algorithmName l k n)
            operation d)
  = [algorithmName; to_string l; to_string k; to_string n; operation; to_string d].
Proof.
  intros Ha Hop.
  rewrite fields_csv, (fields_description _ _ _ _ Ha), (fields_no_comma _ Hop).
  reflexivity.
Qed.

Lemma sixteen_lines (secLevelIndex inputLength : Z) (ds : list Z) :
  List.length ds = 16%nat ->
  let lines := csv_lines (descriptions secLevelIndex inputLength) ds in
  List.length lines = 16%nat
  /\ map (field 0) lines = line_names
  /\ map (field 4) lines = line_operations
  /\ map (field 1) lines = repeat (to_string (at_index securityLevels secLevelIndex)) 16
  /\ map (field 3) lines = repeat (to_string (int_of inputLength)) 16.
Proof.
  intros Hlen.
  do 16 (destruct ds as [|? ds]; [discriminate|]).
  destruct ds; [|discriminate]. clear Hlen.
  unfold descriptions. cbv zeta. cbn [csv_lines map List.length].
  unfold field. rewrite !fields_line by reflexivity.
  cbn [nth]. repeat split; reflexivity.
Qed.

Lemma profiled_since {lib : CryptoLib} {A} description ctors w (o : outcome A) :
  profiled description ctors w o ->
  exists ds,
    lines_since w o = csv_lines [description] ds
    /\ Forall in_size_t ds
    /\ constructions (calls_since w o) = ctors
    /\ match o with
       | Returned _ _ =>
           List.length ds = 2%nat /\ checks_pass (calls_since w o) = true
       | Aborted _ =>
           checks_pass (calls_since w o) = false
           /\ ((ds = [] /\ verify_failed (calls_since w o) = false)
               \/ (List.length ds = 2%nat /\ verify_failed (calls_since w o) = true))
       end.
Proof.
  intros (ds & tr & Hg & Hds & Hk & Ho).
  destruct (grows_since _ _ _ _ Hg) as [-> ->].
  exists ds. auto.
Qed.

Lemma checks_pass_since {lib : CryptoLib} argv w :
  Z.of_nat (List.length argv) = 3 ->
  checks_pass (calls_since w (main argv w)) = true ->
  exists w' ds,
    main argv w = Returned 0 w'
    /\ List.length ds = 16%nat
    /\ lines_since w (main argv w)
       = csv_lines (descriptions (indexFor (atoi (nth 1 argv "")))
                      (message_length w)) ds.
Proof.
  intros Hargc Hpass.
  destruct (main_spec argv w Hargc) as (ds & tr & Hcout & Htr & _ & _ & Ho).
  unfold calls_since in Hpass. rewrite Htr, skipn_length_app in Hpass.
  cbn [checks_pass forallb check_passed andb] in Hpass.
  unfold lines_since. rewrite Hcout, skipn_length_app.
  destruct (main argv w) as [code w'|w'].
  - destruct Ho as (-> & Hlen & _). exists w', ds. auto.
  - destruct Ho as [Hfalse _]. unfold checks_pass in Hfalse.
    rewrite Hfalse in Hpass. discriminate.
Qed.

(** ** The driver's output *)

(** C1. A run of the driver that completes has written exactly 16 lines,
    a sign line and a verify line for each scheme, in the order RSA, NR, DSA,
    LUC, LUC-DL, Rabin, RW, ECDSA. *)
Theorem C1_driver_sixteen_lines (lib : CryptoLib)
    (inputData : list byte) (inputLength securityLevel : Z) (w w' : world) :
  ProfileSignatureSchemes inputData inputLength securityLevel w = Returned tt w' ->
  exists lines,
    cout w' = (cout w ++ lines)%list
    /\ List.length lines = 16%nat
    /\ map (field 0) lines
       = [ "RSA"; "RSA"; "NR"; "NR"; "DSA"; "DSA"; "LUC"; "LUC";
           "LUC-DL"; "LUC-DL"; "Rabin"; "Rabin"; "RW"; "RW"; "ECDSA"; "ECDSA" ]
    /\ map (field 4) lines
       = [ "sign"; "verify"; "sign"; "verify"; "sign"; "verify"; "sign"; "verify";
           "sign"; "verify"; "sign"; "verify"; "sign"; "verify"; "sign"; "verify" ]
    /\ exists ds, Forall in_size_t ds
         /\ lines = csv_lines (descriptions securityLevel inputLength) ds.
Proof.
  intros Hrun.
  destruct (ProfileSignatureSchemes_spec inputData inputLength securityLevel w)
    as (ds & tr & (Hcout & _) & Hds & Ho).
  rewrite Hrun in Hcout, Ho. cbn [final] in Hcout. destruct Ho as [Hlen _].
  destruct (sixteen_lines securityLevel inputLength ds Hlen)
    as (L & N & O & _).
  exists (csv_lines (descriptions securityLevel inputLength) ds).
  repeat split; auto. exists ds; auto.
Qed.

Lemma C1_driver_sixteen_lines_witness :
  exists lines,
    cout (final (ProfileSignatureSchemes (lib := Toy.sound) [] 0 0
                   (Toy.start Toy.sound 0 "")))
    = ([] ++ lines)%list
    /\ List.length lines = 16%nat.
Proof.
  destruct (C1_driver_sixteen_lines Toy.sound [] 0 0 (Toy.start Toy.sound 0 "")
              (final (ProfileSignatureSchemes (lib := Toy.sound) [] 0 0
                        (Toy.start Toy.sound 0 ""))))
    as (lines & H1 & H2 & _).
  - vm_compute. reflexivity.
  - exists lines. split; assumption.
Defined.

Example description_RSA_128_hello :
  generateDetailedDescription "RSA" (at_index securityLevels 2)
    (at_index factorizationGroupSizes 2) (int_of 5) = "RSA,128,3072,5".
Proof. reflexivity. Qed.

(** C4. With input [hello], security level argument 128 and seed
    0123456789abcdef the lookup yields index 2, whose table row has
    factorization group size 3072, subgroup size 256 and curve size 256.
    The first line written is [RSA,128,3072,5,sign,] followed by a
    non-negative decimal numeral: no other first line is possible, and there
    is one whenever the library's validations and verifications succeed. *)
Theorem C4_first_line_hello (lib : CryptoLib) (w : world) :
  cin w = "hello" ->
  let argv := ["verifier"; "128"; "0123456789abcdef"] in
  message_of w = "hello"
  /\ message_length w = 5
  /\ indexFor (atoi (nth 1 argv "")) = 2
  /\ at_index factorizationGroupSizes 2 = 3072
  /\ at_index finiteFieldSubgroupSizes 2 = 256
  /\ at_index ellipticCurveSizes 2 = 256
  /\ seed_bytes argv = list_byte_of_string "0123456789abcdef"
  /\ (forall line,
        hd_error (lines_since w (main argv w)) = Some line ->
        exists d, in_size_t d
          /\ line = "RSA,128,3072,5,sign," ++ to_string d
          /\ is_numeral (to_string d) = true)
  /\ (checks_pass (calls_since w (main argv w)) = true ->
      exists line, hd_error (lines_since w (main argv w)) = Some line).
Proof.
  intros Hcin argv.
  assert (Hm : message_of w = "hello") by (unfold message_of; now rewrite Hcin).
  assert (Hl : message_length w = 5) by (unfold message_length; now rewrite Hm).
  repeat (split; [first [exact Hm | exact Hl | reflexivity]|]).
  split.
  - intros line Hline.
    destruct (main_spec argv w eq_refl) as (ds & tr & Hcout & _ & _ & Hds & _).
    unfold lines_since in Hline. rewrite Hcout, skipn_length_app, Hl in Hline.
    change (indexFor (atoi (nth 1 argv ""))) with 2 in Hline.
    destruct ds as [|d1 [|d2 ds]]; try discriminate.
    unfold descriptions in Hline. cbv zeta in Hline.
    cbn [csv_lines hd_error] in Hline.
    injection Hline as <-.
    apply Forall_inv in Hds.
    exists d1. split; [exact Hds|]. split.
    + rewrite generateCSVString_eq, description_RSA_128_hello. reflexivity.
    + apply to_string_numeral. apply Hds.
  - intros Hpass.
    destruct (checks_pass_since argv w eq_refl Hpass) as (w' & ds & _ & Hlen & Hlines).
    rewrite Hlines.
    destruct ds as [|d1 [|d2 ds]]; try discriminate.
    unfold descriptions. cbv zeta. cbn [csv_lines hd_error]. eauto.
Qed.

Lemma C4_first_line_hello_witness :
  let w := Toy.start Toy.sound 0 "hello" in
  let o := main (lib := Toy.sound) ["verifier"; "128"; "0123456789abcdef"] w in
  exists line d,
    hd_error (lines_since w o) = Some line
    /\ in_size_t d
    /\ line = "RSA,128,3072,5,sign," ++ to_string d
    /\ is_numeral (to_string d) = true.
Proof.
  intros w o.
  destruct (C4_first_line_hello Toy.sound w eq_refl)
    as (_ & _ & _ & _ & _ & _ & _ & Hshape & Hsome).
  destruct (Hsome ltac:(vm_compute; reflexivity)) as [line Hline].
  destruct (Hshape line Hline) as (d & Hd & Heq & Hnum).
  exists line, d. auto.
Defined.

(** ** Key generation *)

(** C5, as stated, fails: at index 0 the subgroup size is 160, but the DSA
    signer is generated with 1024 (the factorization group size) and the
    LUC-DL signer with 1024 (the finite field size). *)
Lemma C5_subgroup_size_counterexample :
  let w := Toy.start Toy.sound 0 "" in
  at_index finiteFieldSubgroupSizes 0 = 160
  /\ constructions (calls_since w (ValidateDSA (lib := Toy.sound) [] 0 0 w))
     = [call_Signer DSA 1024]
  /\ constructions (calls_since w (ValidateLUC_DL (lib := Toy.sound) [] 0 0 w))
     = [call_Signer LUC_HMP_SHA 1024]
  /\ constructions (calls_since w (ValidateDSA (lib := Toy.sound) [] 0 0 w))
     <> [call_Signer DSA (at_index finiteFieldSubgroupSizes 0)]
  /\ constructions (calls_since w (ValidateLUC_DL (lib := Toy.sound) [] 0 0 w))
     <> [call_Signer LUC_HMP_SHA (at_index finiteFieldSubgroupSizes 0)].
Proof.
  vm_compute. repeat split; discriminate.
Qed.

(** C5, amended. Each adapter constructs exactly one signer: NR generates
    its key with the subgroup size, LUC-DL with the finite field size, DSA,
    RSA, LUC, Rabin and RW with the factorization group size, each read from
    the table at the given index; ECDSA builds its key from the fixed curve
    data, whatever the index. *)
Theorem C5_key_generation_magnitudes (lib : CryptoLib)
    (input : list byte) (inputLength secLevelIndex : Z) (w : world) :
  constructions (calls_since w (ValidateRSA input inputLength secLevelIndex w))
  = [call_Signer RSASSA_PKCS1v15_MD2 (at_index factorizationGroupSizes secLevelIndex)]
  /\ constructions (calls_since w (ValidateNR input inputLength secLevelIndex w))
     = [call_Signer NR_SHA (at_index finiteFieldSubgroupSizes secLevelIndex)]
  /\ constructions (calls_since w (ValidateDSA input inputLength secLevelIndex w))
     = [call_Signer DSA (at_index factorizationGroupSizes secLevelIndex)]
  /\ constructions (calls_since w (ValidateLUC input inputLength secLevelIndex w))
     = [call_Signer LUCSSA_PKCS1v15_SHA (at_index factorizationGroupSizes secLevelIndex)]
  /\ constructions (calls_since w (ValidateLUC_DL input inputLength secLevelIndex w))
     = [call_Signer LUC_HMP_SHA (at_index finiteFieldSizes secLevelIndex)]
  /\ constructions (calls_since w (ValidateRabin input inputLength secLevelIndex w))
     = [call_Signer RabinSS_PSSR_SHA (at_index factorizationGroupSizes secLevelIndex)]
  /\ constructions (calls_since w (ValidateRW input inputLength secLevelIndex w))
     = [call_Signer RWSS_PSSR_SHA (at_index factorizationGroupSizes secLevelIndex)]
  /\ constructions (calls_since w (ValidateECDSA input inputLength secLevelIndex w))
     = [call_ECDSA_Signer P1363_vector].
Proof.
  pose proof (profiled_since _ _ _ _ (ValidateRSA_spec input inputLength secLevelIndex w))
    as (? & _ & _ & H1 & _).
  pose proof (profiled_since _ _ _ _ (ValidateNR_spec input inputLength secLevelIndex w))
    as (? & _ & _ & H2 & _).
  pose proof (profiled_since _ _ _ _ (ValidateDSA_spec input inputLength secLevelIndex w))
    as (? & _ & _ & H3 & _).
  pose proof (profiled_since _ _ _ _ (ValidateLUC_spec input inputLength secLevelIndex w))
    as (? & _ & _ & H4 & _).
  pose proof (profiled_since _ _ _ _ (ValidateLUC_DL_spec input inputLength secLevelIndex w))
    as (? & _ & _ & H5 & _).
  pose proof (profiled_since _ _ _ _ (ValidateRabin_spec input inputLength secLevelIndex w))
    as (? & _ & _ & H6 & _).
  pose proof (profiled_since _ _ _ _ (ValidateRW_spec input inputLength secLevelIndex w))
    as (? & _ & _ & H7 & _).
  pose proof (profiled_since _ _ _ _ (ValidateECDSA_spec input inputLength secLevelIndex w))
    as (? & _ & _ & H8 & _).
  repeat split; assumption.
Qed.

(** ** A failed verification *)

(** C6, as stated, fails: with a library whose verification rejects, the
    protocol has written the verify line when it is stopped. *)
Lemma C6_verify_line_counterexample :
  let w := Toy.start Toy.broken 0 "" in
  let o := ProfileSignatureValidate (lib := Toy.broken) (DSA, 1024) (DSA, 1024)
             [] 0 "DSA,80,1024,0" false w in
  verify_failed (calls_since w o) = true
  /\ o = Aborted (final o)
  /\ lines_since w o = ["DSA,80,1024,0,sign,7"; "DSA,80,1024,0,verify,7"].
Proof.
  vm_compute. repeat split; reflexivity.
Qed.

(** C6, amended. If verifying the signature just produced fails, the run
    is stopped for good (whatever was to follow does not run), and it is
    stopped after the verify line has been written: the protocol's output
    is then the sign line followed by the verify line. *)
Theorem C6_verify_failure_aborts_after_line (lib : CryptoLib)
    (priv : signer) (pub : verifier) (input : list byte) (inputLength : Z)
    (description : string) (thorough : bool) (w : world) :
  let o := ProfileSignatureValidate priv pub input inputLength description
             thorough w in
  verify_failed (calls_since w o) = true ->
  o = Aborted (final o)
  /\ (forall B (k : bool -> M B), bind (fun w0 =>
        ProfileSignatureValidate priv pub input inputLength description
          thorough w0) k w = Aborted (final o))
  /\ exists signNanoSeconds verifyNanoSeconds,
       lines_since w o
       = [ generateCSVString description "sign" signNanoSeconds;
           generateCSVString description "verify" verifyNanoSeconds ].
Proof.
  intros o Hfail.
  destruct (ProfileSignatureValidate_spec priv pub input inputLength description
              thorough w) as [Hp _].
  apply profiled_since in Hp. fold o in Hp.
  destruct Hp as (ds & Hlines & _ & _ & Ho).
  assert (Hbind : forall B (k : bool -> M B),
             bind (fun w0 => ProfileSignatureValidate priv pub input inputLength
                               description thorough w0) k w
             = match o with
               | Returned a w' => k a w'
               | Aborted w' => Aborted w'
               end) by reflexivity.
  clearbody o.
  destruct o as [b w'|w'].
  - destruct Ho as [_ Hpass].
    rewrite (verify_failed_checks _ Hfail) in Hpass. discriminate.
  - split; [reflexivity|]. split; [exact Hbind|].
    destruct Ho as [_ [[_ Hno]|[Hlen _]]].
    + rewrite Hfail in Hno. discriminate.
    + destruct ds as [|d1 [|d2 [|d3 ds]]]; try discriminate.
      exists d1, d2. exact Hlines.
Qed.

Lemma C6_verify_failure_aborts_after_line_witness :
  let w := Toy.start Toy.broken 0 "" in
  let o := ProfileSignatureValidate (lib := Toy.broken) (DSA, 1024) (DSA, 1024)
             [] 0 "DSA,80,1024,0" false w in
  o = Aborted (final o).
Proof.
  intros w o.
  refine (proj1 (C6_verify_failure_aborts_after_line Toy.broken (DSA, 1024)
                   (DSA, 1024) [] 0 "DSA,80,1024,0" false w _)).
  vm_compute. reflexivity.
Defined.

(** ** Usage errors *)

(** C7. Called with an argument count other than 3, the program writes
    the three usage lines and returns 1; nothing else happens: standard input
    is not read, the generator is not keyed, the clock is not read, no
    library routine is called and no CSV line is written. *)
Theorem C7_usage_error (lib : CryptoLib) (argv : list string) (w : world) :
  Z.of_nat (List.length argv) <> 3 ->
  main argv w
  = Returned 1
      {| cin := cin w;
         cout := (cout w ++
                  [ "usage: verifier <security-level> <rng-seed>";
                    "       security-level: the AES security equivalent level";
                    "       rng-seed:       the seed for the global RNG" ])%list;
         s_globalRNG := s_globalRNG w;
         steady_clock := steady_clock w;
         clock_reads := clock_reads w;
         trace := trace w |}.
Proof.
  intros Hargc. unfold main.
  destruct (Z.eqb_spec (Z.of_nat (List.length argv)) 3) as [E|_]; [contradiction|].
  cbn [negb]. unfold showUsage, bind, print_line, ret.
  cbn [cin cout s_globalRNG steady_clock clock_reads trace].
  now rewrite <- !app_assoc.
Qed.

Lemma C7_usage_error_witness :
  let w := Toy.start Toy.sound 0 "hello" in
  let o := main (lib := Toy.sound) ["verifier"; "128"] w in
  o = Returned 1 (final o)
  /\ cout (final o) = usage_lines
  /\ cin (final o) = "hello"
  /\ trace (final o) = [].
Proof.
  intros w o. unfold o.
  rewrite (C7_usage_error Toy.sound ["verifier"; "128"] w
             ltac:(vm_compute; discriminate)).
  repeat split.
Defined.

(** ** The elliptic curve adapter *)


(** ** The input message *)

Lemma concat_input_lines (s : string) :
  String.concat "" (input_lines s) = strip_newlines s.
Proof.
  induction s as [|c r IH]; simpl; [reflexivity|].
  destruct (Ascii.eqb c newline).
  - destruct (input_lines r) as [|l ls] eqn:E; simpl in *; exact IH.
  - destruct (input_lines r) as [|l ls] eqn:E; simpl in *.
    + now rewrite <- IH.
    + destruct ls; simpl in *; now rewrite <- IH.
Qed.

(** C9. For every standard input, the message [main] hands to the driver
    is the concatenation of the input's lines, that is the stream without
    its newline characters, together with its length; the stream is read to
    its end.  A message of length zero is passed to the driver like any
    other, and when the library's validations and verifications succeed the
    run returns 0 having written the 16 sign and verify lines, each with 0
    in its input length field. *)
Theorem C9_empty_input_accepted (lib : CryptoLib) (argv : list string) (w : world) :
  Z.of_nat (List.length argv) = 3 ->
  cin w = "" ->
  checks_pass (calls_since w (main argv w)) = true ->
  (forall stdin, fst (read_all stdin) = String.concat "" (input_lines stdin)
                 /\ fst (read_all stdin) = strip_newlines stdin)
  /\ (forall (argv0 : list string) (w0 : world),
        Z.of_nat (List.length argv0) = 3 ->
        let message := String.concat "" (input_lines (cin w0)) in
        message = strip_newlines (cin w0)
        /\ main argv0 w0
           = bind (ProfileSignatureSchemes (list_byte_of_string message)
                     (size_t_of (int_of (Z.of_nat (String.length message))))
                     (indexFor (atoi (nth 1 argv0 ""))))
                  (fun _ => ret 0) (seeded argv0 w0)
        /\ cin (seeded argv0 w0) = ""
        /\ cin (final (main argv0 w0)) = "")
  /\ message_of w = "" /\ message_length w = 0
  /\ main argv w
     = bind (ProfileSignatureSchemes [] 0 (indexFor (atoi (nth 1 argv ""))))
            (fun _ => ret 0) (seeded argv w)
  /\ exists w',
       main argv w = Returned 0 w'
       /\ List.length (lines_since w (main argv w)) = 16%nat
       /\ map (field 0) (lines_since w (main argv w)) = line_names
       /\ map (field 4) (lines_since w (main argv w)) = line_operations
       /\ map (field 3) (lines_since w (main argv w)) = repeat "0" 16.
Proof.
  intros Hargc Hcin Hpass.
  assert (Hm : message_of w = "") by (unfold message_of; now rewrite Hcin).
  assert (Hl : message_length w = 0) by (unfold message_length; now rewrite Hm).
  split.
  { intros stdin. rewrite concat_input_lines, read_all_spec. split; reflexivity. }
  split.
  { intros argv0 w0 Hargc0. cbv zeta. rewrite concat_input_lines.
    split; [reflexivity|]. split; [exact (main_eq argv0 w0 Hargc0)|].
    split; [reflexivity|].
    destruct (main_spec argv0 w0 Hargc0) as (ds & tr & _ & _ & Hin & _).
    exact Hin. }
  split; [exact Hm|]. split; [exact Hl|]. split.
  { rewrite (main_eq argv w Hargc), Hm, Hl. reflexivity. }
  destruct (checks_pass_since argv w Hargc Hpass) as (w' & ds & Hrun & Hlen & Hlines).
  exists w'. split; [exact Hrun|].
  rewrite Hlines, Hl.
  destruct (sixteen_lines (indexFor (atoi (nth 1 argv ""))) 0 ds Hlen)
    as (L & N & O & _ & F).
  repeat split; assumption.
Qed.

Lemma C9_empty_input_accepted_witness :
  let w := Toy.start Toy.sound 0 "" in
  let argv := ["verifier"; "80"; "seed"] in
  let w0 := Toy.start Toy.sound 0 (String "a" (String newline (String "b" (String newline "c")))) in
  (exists w',
     main (lib := Toy.sound) argv w = Returned 0 w'
     /\ List.length (lines_since w (main (lib := Toy.sound) argv w)) = 16%nat
     /\ map (field 3) (lines_since w (main (lib := Toy.sound) argv w)) = repeat "0" 16)
  /\ main (lib := Toy.sound) argv w0
     = bind (ProfileSignatureSchemes (lib := Toy.sound)
               (list_byte_of_string "abc") 3 0)
            (fun _ => ret 0) (seeded argv w0).
Proof.
  intros w argv w0.
  destruct (C9_empty_input_accepted Toy.sound argv w eq_refl eq_refl
              ltac:(vm_compute; reflexivity))
    as (_ & Hany & _ & _ & _ & w' & Hrun & Hlen & _ & _ & Hf).
  split.
  - exists w'. repeat split; assumption.
  - destruct (Hany argv w0 eq_refl) as (_ & Hmain & _).
    exact Hmain.
Defined.

(** ** Two runs that differ in the clock only *)

Section Determinism.

Context {lib : CryptoLib}.

Lemma sim_ret {A} (R : A -> A -> Prop) a1 a2 : R a1 a2 -> simM R (ret a1) (ret a2).
Proof. intros H w1 w2 Hw. split; assumption. Qed.

Lemma sim_bind {A B} (R : A -> A -> Prop) (S : B -> B -> Prop)
    (m1 m2 : M A) (f1 f2 : A -> M B) :
  simM R m1 m2 ->
  (forall a1 a2, R a1 a2 -> simM S (f1 a1) (f2 a2)) ->
  simM S (bind m1 f1) (bind m2 f2).
Proof.
  intros Hm Hf w1 w2 Hw. unfold bind. specialize (Hm w1 w2 Hw).
  destruct (m1 w1) as [a1 w1'|w1'], (m2 w2) as [a2 w2'|w2']; simpl in Hm;
    try contradiction.
  - destruct Hm as [Ha Hw']. exact (Hf a1 a2 Ha w1' w2' Hw').
  - exact Hm.
Qed.

Lemma sim_assert (b : bool) : simM eq (assert b) (assert b).
Proof. intros w1 w2 Hw. unfold assert. destruct b; simpl; auto. Qed.

Lemma sim_print_line (l1 l2 : string) :
  untimed l1 = untimed l2 -> simM eq (print_line l1) (print_line l2).
Proof.
  intros Hl w1 w2 (H1 & H2 & H3 & H4). unfold print_line. simpl.
  split; [reflexivity|]. unfold sim. simpl.
  rewrite !map_app, H3. simpl. rewrite Hl. auto.
Qed.

Lemma sim_log (c : call) : simM eq (log c) (log c).
Proof.
  intros w1 w2 (H1 & H2 & H3 & H4). unfold log. simpl.
  split; [reflexivity|]. unfold sim. simpl.
  rewrite !untimed_trace_app, H4. auto.
Qed.

Lemma sim_call_out {A} (a : A) (c : call) : simM eq (call_out a c) (call_out a c).
Proof.
  unfold call_out. eapply sim_bind; [apply sim_log|].
  intros _ _ _. now apply sim_ret.
Qed.

Lemma sim_now : simM any now now.
Proof.
  intros w1 w2 (H1 & H2 & H3 & H4). unfold now. simpl.
  split; [exact I|]. unfold sim. simpl.
  rewrite !untimed_trace_app, H4. simpl. auto.
Qed.

Lemma sim_with_GlobalRNG {A} (p : draw A) (ev : A -> call) :
  simM eq (with_GlobalRNG p ev) (with_GlobalRNG p ev).
Proof.
  intros w1 w2 (H1 & H2 & H3 & H4). unfold with_GlobalRNG.
  rewrite !run_draw_app, H2. simpl.
  split; [reflexivity|]. unfold sim. simpl.
  rewrite !untimed_trace_app, H4. auto.
Qed.

Lemma sim_SetKeyWithIV key len iv :
  simM eq (GlobalRNG_SetKeyWithIV key len iv) (GlobalRNG_SetKeyWithIV key len iv).
Proof.
  intros w1 w2 (H1 & H2 & H3 & H4). unfold GlobalRNG_SetKeyWithIV. simpl.
  split; [reflexivity|]. unfold sim. simpl.
  rewrite !untimed_trace_app, H4, H2. auto.
Qed.

Lemma sim_read_cin : simM eq read_cin read_cin.
Proof.
  intros w1 w2 (H1 & H2 & H3 & H4). unfold read_cin.
  rewrite H1. destruct (read_all (cin w2)) as [fullLine rest]. simpl.
  split; [reflexivity|]. unfold sim. simpl. auto.
Qed.

(** One step of a relational proof: a primitive, or a bind whose first
    computation is a primitive. *)
Ltac sim_prim :=
  first [ apply sim_assert | apply sim_now | apply sim_with_GlobalRNG
        | apply sim_call_out | apply sim_log | apply sim_SetKeyWithIV
        | apply sim_read_cin
        | apply sim_print_line; rewrite !untimed_csv; reflexivity
        | apply sim_ret; reflexivity ].

Ltac sim_next :=
  first [ sim_prim
        | eapply sim_bind;
          [ sim_prim
          | let a1 := fresh "a" in let a2 := fresh "a" in let H := fresh "H" in
            intros a1 a2 H;
            first [ subst a2 | clear H ] ] ].

Lemma sim_ProfileSignatureValidate priv pub input inputLength description thorough :
  simM eq
    (ProfileSignatureValidate priv pub input inputLength description thorough)
    (ProfileSignatureValidate priv pub input inputLength description thorough).
Proof.
  unfold ProfileSignatureValidate. cbv zeta.
  sim_next.
  eapply sim_bind with (R := eq).
  { destruct a; cbn [negb]; [|sim_next].
    repeat sim_next. }
  intros fail ? <-.
  repeat sim_next.
Qed.

Ltac sim_adapter :=
  unfold new_Signer, new_Verifier;
  repeat first
    [ sim_next
    | eapply sim_bind;
      [ apply sim_ProfileSignatureValidate
      | let a1 := fresh "a" in let a2 := fresh "a" in let H := fresh "H" in
        intros a1 a2 H; subst a2 ] ].

Lemma sim_ValidateRSA i n x : simM eq (ValidateRSA i n x) (ValidateRSA i n x).
Proof. unfold ValidateRSA. sim_adapter. Qed.

Lemma sim_ValidateNR i n x : simM eq (ValidateNR i n x) (ValidateNR i n x).
Proof. unfold ValidateNR. sim_adapter. Qed.

Lemma sim_ValidateDSA i n x : simM eq (ValidateDSA i n x) (ValidateDSA i n x).
Proof. unfold ValidateDSA. sim_adapter. Qed.

Lemma sim_ValidateLUC i n x : simM eq (ValidateLUC i n x) (ValidateLUC i n x).
Proof. unfold ValidateLUC. sim_adapter. Qed.

Lemma sim_ValidateLUC_DL i n x : simM eq (ValidateLUC_DL i n x) (ValidateLUC_DL i n x).
Proof. unfold ValidateLUC_DL. sim_adapter. Qed.

Lemma sim_ValidateRabin i n x : simM eq (ValidateRabin i n x) (ValidateRabin i n x).
Proof. unfold ValidateRabin. sim_adapter. Qed.

Lemma sim_ValidateRW i n x : simM eq (ValidateRW i n x) (ValidateRW i n x).
Proof. unfold ValidateRW. sim_adapter. Qed.

Lemma sim_ValidateECDSA i n x : simM eq (ValidateECDSA i n x) (ValidateECDSA i n x).
Proof. unfold ValidateECDSA. sim_adapter. Qed.

Lemma sim_ProfileSignatureSchemes i n x :
  simM eq (ProfileSignatureSchemes i n x) (ProfileSignatureSchemes i n x).
Proof.
  unfold ProfileSignatureSchemes.
  eapply sim_bind; [apply sim_ValidateRSA | intros _ _ _].
  eapply sim_bind; [apply sim_ValidateNR | intros _ _ _].
  eapply sim_bind; [apply sim_ValidateDSA | intros _ _ _].
  eapply sim_bind; [apply sim_ValidateLUC | intros _ _ _].
  eapply sim_bind; [apply sim_ValidateLUC_DL | intros _ _ _].
  eapply sim_bind; [apply sim_ValidateRabin | intros _ _ _].
  eapply sim_bind; [apply sim_ValidateRW | intros _ _ _].
  eapply sim_bind; [apply sim_ValidateECDSA | intros _ _ _].
  now apply sim_ret.
Qed.

Lemma sim_main argv : simM eq (main argv) (main argv).
Proof.
  unfold main. cbv zeta.
  destruct (negb (Z.of_nat (List.length argv) =? 3)).
  - unfold showUsage.
    eapply sim_bind with (R := eq); [|intros _ _ _; now apply sim_ret].
    eapply sim_bind; [now apply sim_print_line | intros _ _ _].
    eapply sim_bind; [now apply sim_print_line | intros _ _ _].
    now apply sim_print_line.
  - eapply sim_bind; [apply sim_read_cin | intros fullLine ? <-].
    eapply sim_bind; [apply sim_call_out | intros _ _ _].
    eapply sim_bind; [apply sim_SetKeyWithIV | intros _ _ _].
    eapply sim_bind; [apply sim_ProfileSignatureSchemes | intros _ _ _].
    now apply sim_ret.
Qed.

End Determinism.

Lemma blocks_drawn_untimed (tr : list call) :
  blocks_drawn (untimed_trace tr) = blocks_drawn tr.
Proof.
  induction tr as [|c tr IH]; simpl; [reflexivity|].
  destruct c; simpl; now rewrite ?IH.
Qed.

Lemma length_resize (n : nat) : forall s, String.length (resize n s) = n.
Proof.
  induction n as [|n IH]; intros s; simpl; [reflexivity|].
  destruct s; simpl; now rewrite IH.
Qed.

Lemma length_list_byte_of_string (s : string) :
  List.length (list_byte_of_string s) = String.length s.
Proof.
  unfold list_byte_of_string. rewrite length_map.
  induction s as [|c r IH]; simpl; [reflexivity | now rewrite IH].
Qed.

Lemma seed_bytes_length (argv : list string) : List.length (seed_bytes argv) = 16%nat.
Proof.
  unfold seed_bytes. now rewrite length_list_byte_of_string, length_resize.
Qed.

Lemma main_seeds {lib : CryptoLib} argv w :
  if Z.of_nat (List.length argv) =? 3
  then nth_error (calls_since w (main argv w)) 1
       = Some (call_SetKeyWithIV (seed_bytes argv) 16 (seed_bytes argv))
  else calls_since w (main argv w) = [].
Proof.
  destruct (Z.eqb_spec (Z.of_nat (List.length argv)) 3) as [E|E].
  - destruct (main_spec argv w E) as (ds & tr & _ & Htr & _).
    unfold calls_since. now rewrite Htr, skipn_length_app.
  - unfold main. destruct (Z.eqb_spec (Z.of_nat (List.length argv)) 3) as [|_];
      [contradiction|].
    unfold calls_since. cbn. replace (List.length (trace w) - List.length (trace w))%nat
      with 0%nat by lia.
    now rewrite skipn_all.
Qed.

(** C8. Two runs with the same seed string, the same security level and
    the same input, under any two clocks, end the same way; in both the
    generator is keyed with the same 16 bytes, used as key and as IV; the
    same blocks are drawn from it in the same order by the same calls; and
    the lines written agree in every field but the last, the elapsed
    nanoseconds. *)
Theorem C8_runs_agree_up_to_timing (lib : CryptoLib)
    (programA programB securityLevel rngSeed : string)
    (w : world) (clockA clockB : nat -> Z) (readsA readsB : nat) :
  let argvA := [programA; securityLevel; rngSeed] in
  let argvB := [programB; securityLevel; rngSeed] in
  let key := list_byte_of_string (resize 16 rngSeed) in
  let wA := at_clock w clockA readsA in
  let wB := at_clock w clockB readsB in
  let oA := main argvA wA in
  let oB := main argvB wB in
  match oA, oB with
  | Returned codeA _, Returned codeB _ => codeA = codeB
  | Aborted _, Aborted _ => True
  | _, _ => False
  end
  /\ List.length key = 16%nat
  /\ nth_error (calls_since wA oA) 1 = Some (call_SetKeyWithIV key 16 key)
  /\ nth_error (calls_since wB oB) 1 = Some (call_SetKeyWithIV key 16 key)
  /\ s_globalRNG (final oA) = s_globalRNG (final oB)
  /\ blocks_drawn (trace (final oA)) = blocks_drawn (trace (final oB))
  /\ untimed_trace (trace (final oA)) = untimed_trace (trace (final oB))
  /\ map untimed (cout (final oA)) = map untimed (cout (final oB)).
Proof.
  intros argvA argvB key wA wB oA oB.
  assert (Hsim : sim wA wB) by (repeat split; reflexivity).
  pose proof (sim_main argvA wA wB Hsim) as Hrun.
  change (main argvA wB) with oB in Hrun. fold oA in Hrun.
  pose proof (main_seeds argvA wA) as HA. pose proof (main_seeds argvB wB) as HB.
  change (nth_error (calls_since wA oA) 1 = Some (call_SetKeyWithIV key 16 key)) in HA.
  change (nth_error (calls_since wB oB) 1 = Some (call_SetKeyWithIV key 16 key)) in HB.
  assert (Hfinal : sim (final oA) (final oB)
                   /\ match oA, oB with
                      | Returned codeA _, Returned codeB _ => codeA = codeB
                      | Aborted _, Aborted _ => True
                      | _, _ => False
                      end).
  { clearbody oA oB.
    destruct oA as [a wa|wa], oB as [b wb|wb]; simpl in Hrun |- *;
      try contradiction; tauto. }
  destruct Hfinal as [(S1 & S2 & S3 & S4) Hcode].
  split; [exact Hcode|].
  split; [exact (seed_bytes_length argvA)|].
  split; [exact HA|]. split; [exact HB|].
  split; [exact S2|].
  split; [now rewrite <- (blocks_drawn_untimed (trace (final oA))), S4,
            blocks_drawn_untimed|].
  split; assumption.
Qed.

(** * Further properties of the code *)

(** ** The encoders, read back *)

Lemma from_to_string (z : Z) : from_string (to_string z) = Some z.
Proof.
  unfold from_string, to_string.
  rewrite NilZero.isi.
  - simpl. now rewrite DecimalZ.of_to.
  - destruct z; simpl; try discriminate.
    intros [= H]. now apply DecimalPos.Unsigned.to_uint_nonnil in H.
  - destruct z; simpl; try discriminate.
    intros [= H]. now apply DecimalPos.Unsigned.to_uint_nonnil in H.
Qed.

Lemma csv_line_fields_parse (name : string) (level magnitude inputLength : Z)
    (operation : string) (delta : Z) :
  no_comma name = true ->
  no_comma operation = true ->
  parse_line (generateCSVString
                (generateDetailedDescription name level magnitude inputLength)
                operation delta)
  = Some {| algorithmName := name; securityLevelBits := level;
            parameterMagnitude := magnitude; inputLengthBytes := inputLength;
            operationName := operation; elapsedNanoseconds := delta |}.
Proof.
  intros Hn Hop. unfold parse_line.
  rewrite (fields_line _ _ _ _ _ _ Hn Hop).
  now rewrite !from_to_string.
Qed.

(** A line built by the two encoders can be read back: it has exactly six
    fields and they are the six values it was built from, provided the
    algorithm and operation names hold no comma. *)
Theorem csv_line_parses_back (name : string) (level magnitude inputLength : Z)
    (operation : string) (delta : Z) :
  no_comma name = true ->
  no_comma operation = true ->
  parse_line (generateCSVString
                (generateDetailedDescription name level magnitude inputLength)
                operation delta)
  = Some {| algorithmName := name; securityLevelBits := level;
            parameterMagnitude := magnitude; inputLengthBytes := inputLength;
            operationName := operation; elapsedNanoseconds := delta |}.
Proof.
  exact (csv_line_fields_parse name level magnitude inputLength operation delta).
Qed.

Lemma csv_line_parses_back_witness :
  parse_line (generateCSVString (generateDetailedDescription "LUC-DL" 80 1024 0)
                "verify" 18446744073709551615)
  = Some {| algorithmName := "LUC-DL"; securityLevelBits := 80;
            parameterMagnitude := 1024; inputLengthBytes := 0;
            operationName := "verify";
            elapsedNanoseconds := 18446744073709551615 |}.
Proof.
  exact (csv_line_parses_back "LUC-DL" 80 1024 0 "verify" 18446744073709551615
           eq_refl eq_refl).
Defined.

(** The encoders do not escape commas: a comma in the algorithm name shifts
    every later field, so that the line no longer reads back. *)
Example comma_in_name_breaks_line :
  parse_line (generateCSVString (generateDetailedDescription "a,b" 80 1024 0)
                "sign" 1) = None.
Proof. reflexivity. Qed.

(** [generateSignDescription] and [generateVerifyDescription] put the
    operation in front of the description: five fields, operation first,
    an order no line of the program's output has. *)
Theorem operation_first_descriptions (name : string) (level keyLength inputLength : Z) :
  no_comma name = true ->
  fields (generateSignDescription name level keyLength inputLength)
  = ["sign"; name; to_string level; to_string keyLength; to_string inputLength]
  /\ fields (generateVerifyDescription name level keyLength inputLength)
     = ["verify"; name; to_string level; to_string keyLength; to_string inputLength]
  /\ forall operation delta,
       generateSignDescription name level keyLength inputLength
       <> generateCSVString
            (generateDetailedDescription name level keyLength inputLength)
            operation delta.
Proof.
  intros Hn.
  assert (Hs : fields (generateSignDescription name level keyLength inputLength)
               = ["sign"; name; to_string level; to_string keyLength;
                  to_string inputLength]).
  { unfold generateSignDescription. cbv zeta.
    change ("" ++ "sign,") with ("sign" ++ String comma "").
    rewrite append_assoc. change (String comma "" ++ ?x) with (String comma x).
    rewrite fields_app_comma, (fields_description _ _ _ _ Hn). reflexivity. }
  split; [exact Hs|]. split.
  - unfold generateVerifyDescription. cbv zeta.
    change ("" ++ "verify,") with ("verify" ++ String comma "").
    rewrite append_assoc. change (String comma "" ++ ?x) with (String comma x).
    rewrite fields_app_comma, (fields_description _ _ _ _ Hn). reflexivity.
  - intros operation delta E.
    apply (f_equal fields) in E. rewrite Hs, fields_csv in E.
    rewrite (fields_description _ _ _ _ Hn) in E.
    apply (f_equal (@List.length string)) in E.
    rewrite !length_app in E. simpl in E.
    pose proof (fields_nonempty operation) as Hne.
    destruct (fields operation); [contradiction | simpl in E; lia].
Qed.

Lemma operation_first_descriptions_witness :
  fields (generateSignDescription "RSA" 128 3072 5)
  = ["sign"; "RSA"; "128"; "3072"; "5"].
Proof.
  exact (proj1 (operation_first_descriptions "RSA" 128 3072 5 eq_refl)).
Defined.

(** ** The timed protocol, case by case *)

Section ProtocolRuns.

Context {lib : CryptoLib}.

Ltac step :=
  repeat (progress
    (cbv beta iota zeta delta
       [bind with_GlobalRNG call_out log now print_line assert ret andb negb];
     rewrite ?run_draw_app;
     cbn [cout cin trace s_globalRNG steady_clock clock_reads final fst snd])).

Ltac since :=
  unfold lines_since, calls_since;
  cbn [cout cin trace s_globalRNG steady_clock clock_reads final];
  rewrite <- ?app_assoc, ?skipn_length_app.

Lemma skipn_length_self {X} (l : list X) : skipn (List.length l) l = [].
Proof. apply skipn_all. Qed.

Lemma readings (w : world) :
  steady_clock w (clock_reads w) = reading w 0
  /\ steady_clock w (S (clock_reads w)) = reading w 1
  /\ steady_clock w (S (S (clock_reads w))) = reading w 2
  /\ steady_clock w (S (S (S (clock_reads w)))) = reading w 3.
Proof.
  unfold reading. repeat split; f_equal; lia.
Qed.

Lemma blocks_or_validation_drawn {A} (p : draw A) g :
  forallb (fun c => is_block c || is_validation c) (drawn p g) = true.
Proof.
  pose proof (drawn_blocks p g) as H.
  induction (drawn p g) as [|c l IH]; simpl in *; [reflexivity|].
  apply andb_prop in H as [Hc Hl]. now rewrite Hc, (IH Hl).
Qed.

Lemma no_now_drawn {A} (p : draw A) g :
  forallb (fun c => negb (is_now c)) (drawn p g) = true.
Proof.
  pose proof (drawn_blocks p g) as H.
  induction (drawn p g) as [|c l IH]; simpl in *; [reflexivity|].
  apply andb_prop in H as [Hc Hl]. rewrite (IH Hl).
  destruct c; simpl in *; try discriminate; reflexivity.
Qed.

Lemma protocol_pub_invalid priv pub input inputLength description thorough w :
  pub_valid pub thorough w = false ->
  exists w',
    ProfileSignatureValidate priv pub input inputLength description thorough w
    = Aborted w'
    /\ cout w' = cout w
    /\ clock_reads w' = clock_reads w
    /\ s_globalRNG w' = rng_after_pub pub thorough w
    /\ trace w'
       = (trace w
          ++ drawn (Validate_pub pub (validation_level thorough)) (s_globalRNG w)
          ++ [call_Validate_pub (validation_level thorough) false])%list.
Proof.
  unfold pub_valid, rng_after_pub, validation_level.
  intros Hpub. unfold ProfileSignatureValidate.
  step. rewrite Hpub. step.
  eexists. split; [reflexivity|].
  cbn [cout clock_reads s_globalRNG trace]. rewrite <- !app_assoc.
  repeat split.
Qed.

Lemma protocol_priv_invalid priv pub input inputLength description thorough w :
  pub_valid pub thorough w = true ->
  priv_valid priv pub thorough w = false ->
  exists w',
    ProfileSignatureValidate priv pub input inputLength description thorough w
    = Aborted w'
    /\ cout w' = cout w
    /\ clock_reads w' = clock_reads w
    /\ trace w'
       = (trace w
          ++ drawn (Validate_pub pub (validation_level thorough)) (s_globalRNG w)
          ++ [call_Validate_pub (validation_level thorough) true]
          ++ drawn (Validate_priv priv (validation_level thorough))
               (rng_after_pub pub thorough w)
          ++ [call_Validate_priv (validation_level thorough) false])%list.
Proof.
  unfold pub_valid, priv_valid, rng_after_pub, validation_level.
  intros Hpub Hpriv. unfold ProfileSignatureValidate.
  step. rewrite Hpub. step. rewrite Hpriv. step.
  eexists. split; [reflexivity|].
  cbn [cout clock_reads s_globalRNG trace]. rewrite <- !app_assoc.
  repeat split.
Qed.

Lemma protocol_valid_keys priv pub input inputLength description thorough w :
  pub_valid pub thorough w = true ->
  priv_valid priv pub thorough w = true ->
  exists w' before drawn_by_sign signatureLength, exists verified : bool,
    ProfileSignatureValidate priv pub input inputLength description thorough w
    = (if verified then Returned true w' else Aborted w')
    /\ cout w'
       = (cout w
          ++ [ generateCSVString description "sign"
                 (nanoseconds (reading w 0) (reading w 1));
               generateCSVString description "verify"
                 (nanoseconds (reading w 2) (reading w 3)) ])%list
    /\ clock_reads w' = (clock_reads w + 4)%nat
    /\ trace w'
       = (trace w ++ before ++ [call_now (reading w 0)] ++ drawn_by_sign
          ++ [ call_SignMessage input inputLength signatureLength;
               call_now (reading w 1);
               call_now (reading w 2);
               call_VerifyMessage input inputLength signatureLength verified;
               call_now (reading w 3) ])%list
    /\ forallb is_block drawn_by_sign = true
    /\ forallb (fun c => negb (is_now c)) before = true.
Proof.
  unfold pub_valid, priv_valid, rng_after_pub, validation_level.
  intros Hpub Hpriv. unfold ProfileSignatureValidate.
  destruct (readings w) as (R0 & R1 & R2 & R3).
  set (level := if thorough then 3 else 2) in *.
  set (g1 := rng_after (Validate_pub pub level) (s_globalRNG w)) in *.
  set (g2 := rng_after (Validate_priv priv level) g1).
  step. rewrite Hpub. step. fold g1. rewrite Hpriv. step. fold g2.
  rewrite R0, R1, R2, R3.
  set (signed := answer (SignMessage priv input inputLength) g2).
  set (verified := VerifyMessage pub input inputLength (fst signed) (snd signed)).
  match goal with
  | |- context [if _ then Returned tt ?W else _] => exists W
  end.
  exists (drawn (Validate_pub pub level) (s_globalRNG w)
          ++ [call_Validate_pub level true]
          ++ drawn (Validate_priv priv level) g1
          ++ [call_Validate_priv level true;
              call_MaxSignatureLength (MaxSignatureLength priv)])%list.
  exists (drawn (SignMessage priv input inputLength) g2).
  exists (snd signed), verified.
  split; [destruct verified; reflexivity|].
  cbn [cout clock_reads s_globalRNG trace]. rewrite <- !app_assoc.
  split; [reflexivity|].
  split; [lia|].
  split; [reflexivity|].
  split; [apply drawn_blocks|].
  rewrite !forallb_app, !no_now_drawn. reflexivity.
Qed.

End ProtocolRuns.

(** A key that fails validation stops the run before anything is measured:
    no line is written, the clock is not read, and nothing but the
    validations (and the blocks they draw) has been called, so no signature
    is made. *)
Theorem invalid_key_aborts_unmeasured (lib : CryptoLib)
    (priv : signer) (pub : verifier) (input : list byte) (inputLength : Z)
    (description : string) (thorough : bool) (w : world) :
  pub_valid pub thorough w && priv_valid priv pub thorough w = false ->
  let o := ProfileSignatureValidate priv pub input inputLength description
             thorough w in
  o = Aborted (final o)
  /\ lines_since w o = []
  /\ clock_reads (final o) = clock_reads w
  /\ forallb (fun c => is_block c || is_validation c) (calls_since w o) = true.
Proof.
  intros Hkeys o.
  assert (H : exists w' tr,
             o = Aborted w' /\ cout w' = cout w /\ clock_reads w' = clock_reads w
             /\ trace w' = (trace w ++ tr)%list
             /\ forallb (fun c => is_block c || is_validation c) tr = true).
  { destruct (pub_valid pub thorough w) eqn:Epub.
    - cbn [andb] in Hkeys.
      destruct (protocol_priv_invalid priv pub input inputLength description
                  thorough w Epub Hkeys) as (w' & Ho & Hc & Hk & Ht).
      exists w'. eexists. repeat (split; [eassumption|]).
      rewrite !forallb_app, !blocks_or_validation_drawn. reflexivity.
    - destruct (protocol_pub_invalid priv pub input inputLength description
                  thorough w Epub) as (w' & Ho & Hc & Hk & _ & Ht).
      exists w'. eexists. repeat (split; [eassumption|]).
      rewrite !forallb_app, !blocks_or_validation_drawn. reflexivity. }
  destruct H as (w' & tr & Ho & Hc & Hk & Ht & Hf).
  clearbody o. subst o. cbn [final].
  unfold lines_since, calls_since. cbn [final].
  rewrite Hc, Ht, skipn_length_app, skipn_all.
  repeat split; assumption.
Qed.

Lemma invalid_key_aborts_unmeasured_witness :
  let l := ToyKeys.library true false in
  let w := ToyKeys.start l 0 "" in
  lines_since w (ProfileSignatureValidate (lib := l) (DSA, 1024) (DSA, 1024)
                   [] 0 "DSA,80,1024,0" false w) = [].
Proof.
  intros l w.
  exact (proj1 (proj2 (invalid_key_aborts_unmeasured l (DSA, 1024) (DSA, 1024)
                         [] 0 "DSA,80,1024,0" false w eq_refl))).
Defined.

(** The validation of the private key is skipped when the public key fails:
    the only call is the validation of the public key, and the generator is
    left where that validation left it. *)
Theorem invalid_public_key_skips_private (lib : CryptoLib)
    (priv : signer) (pub : verifier) (input : list byte) (inputLength : Z)
    (description : string) (thorough : bool) (w : world) :
  pub_valid pub thorough w = false ->
  let o := ProfileSignatureValidate priv pub input inputLength description
             thorough w in
  calls_since w o
  = (drawn (Validate_pub pub (validation_level thorough)) (s_globalRNG w)
     ++ [call_Validate_pub (validation_level thorough) false])%list
  /\ s_globalRNG (final o) = rng_after_pub pub thorough w.
Proof.
  intros Hpub o.
  destruct (protocol_pub_invalid priv pub input inputLength description
              thorough w Hpub) as (w' & Ho & _ & _ & Hg & Ht).
  fold o in Ho. clearbody o. subst o.
  unfold calls_since. cbn [final].
  now rewrite Ht, skipn_length_app.
Qed.

Lemma invalid_public_key_skips_private_witness :
  let l := ToyKeys.library false true in
  let w := ToyKeys.start l 0 "" in
  List.length (calls_since w
     (ProfileSignatureValidate (lib := l) (DSA, 1024) (DSA, 1024)
        [] 0 "DSA,80,1024,0" false w)) = 2%nat.
Proof.
  intros l w.
  rewrite (proj1 (invalid_public_key_skips_private l (DSA, 1024) (DSA, 1024)
                    [] 0 "DSA,80,1024,0" false w eq_refl)).
  reflexivity.
Defined.

(** With valid keys both lines are written whatever verification answers,
    and what they report is the time between the two clock readings around
    [SignMessage] and between the two around [VerifyMessage]: key
    validation lies before the first reading, only the signing call and the
    blocks it draws lie between the first two, only the verification call
    between the last two, and verification is given the signature length
    signing returned.  The run returns exactly when verification accepted. *)
Theorem timed_windows (lib : CryptoLib)
    (priv : signer) (pub : verifier) (input : list byte) (inputLength : Z)
    (description : string) (thorough : bool) (w : world) :
  pub_valid pub thorough w = true ->
  priv_valid priv pub thorough w = true ->
  let o := ProfileSignatureValidate priv pub input inputLength description
             thorough w in
  lines_since w o
  = [ generateCSVString description "sign"
        (nanoseconds (reading w 0) (reading w 1));
      generateCSVString description "verify"
        (nanoseconds (reading w 2) (reading w 3)) ]
  /\ clock_reads (final o) = (clock_reads w + 4)%nat
  /\ exists before drawn_by_sign signatureLength verified,
       calls_since w o
       = (before ++ [call_now (reading w 0)] ++ drawn_by_sign
          ++ [ call_SignMessage input inputLength signatureLength;
               call_now (reading w 1);
               call_now (reading w 2);
               call_VerifyMessage input inputLength signatureLength verified;
               call_now (reading w 3) ])%list
       /\ forallb is_block drawn_by_sign = true
       /\ forallb (fun c => negb (is_now c)) before = true
       /\ match o with
          | Returned pass _ => pass = true /\ verified = true
          | Aborted _ => verified = false
          end.
Proof.
  intros Hpub Hpriv o.
  destruct (protocol_valid_keys priv pub input inputLength description
              thorough w Hpub Hpriv)
    as (w' & before & bl & sl & verified & Ho & Hc & Hk & Ht & Hb & Hn).
  fold o in Ho. clearbody o.
  assert (Hfinal : final o = w') by (subst o; now destruct verified).
  unfold lines_since, calls_since. rewrite Hfinal, Hc, Ht, !skipn_length_app.
  split; [reflexivity|]. split; [exact Hk|].
  exists before, bl, sl, verified.
  repeat (split; [assumption || reflexivity|]).
  subst o. destruct verified; auto.
Qed.

Lemma timed_windows_witness :
  let w := Toy.start Toy.sound 0 "" in
  lines_since w (ProfileSignatureValidate (lib := Toy.sound) (DSA, 1024)
                   (DSA, 1024) [] 0 "DSA,80,1024,0" false w)
  = [ generateCSVString "DSA,80,1024,0" "sign" 7;
      generateCSVString "DSA,80,1024,0" "verify" 7 ].
Proof.
  intros w.
  exact (proj1 (timed_windows Toy.sound (DSA, 1024) (DSA, 1024) [] 0
                  "DSA,80,1024,0" false w eq_refl eq_refl)).
Defined.

(** ** Whole runs *)

Lemma indexFor_outside (z : Z) : ~ In z securityLevels -> indexFor z = 0.
Proof.
  intros Hz. rewrite indexFor_cases. unfold securityLevels in Hz.
  destruct (Z.eqb_spec z 80) as [->|_]; [simpl in Hz; tauto|].
  destruct (Z.eqb_spec z 112) as [->|_]; [simpl in Hz; tauto|].
  destruct (Z.eqb_spec z 128) as [->|_]; [simpl in Hz; tauto|].
  destruct (Z.eqb_spec z 192) as [->|_]; [simpl in Hz; tauto|].
  destruct (Z.eqb_spec z 256) as [->|_]; [simpl in Hz; tauto|].
  reflexivity.
Qed.

(** A security level argument that is not in the table is not reported: the
    run is, call for call and line for line, the run for level 80. *)
Theorem unknown_level_runs_as_80 (lib : CryptoLib)
    (program level seed : string) (w : world) :
  ~ In (atoi level) securityLevels ->
  main [program; level; seed] w = main [program; "80"; seed] w.
Proof.
  intros Hlevel.
  rewrite (main_eq [program; level; seed] w eq_refl).
  rewrite (main_eq [program; "80"; seed] w eq_refl).
  cbn [nth]. rewrite (indexFor_outside _ Hlevel). reflexivity.
Qed.

Lemma unknown_level_runs_as_80_witness :
  main (lib := Toy.sound) ["verifier"; "999"; "seed"] (Toy.start Toy.sound 0 "hello")
  = main (lib := Toy.sound) ["verifier"; "80"; "seed"] (Toy.start Toy.sound 0 "hello").
Proof.
  apply (unknown_level_runs_as_80 Toy.sound "verifier" "999" "seed").
  vm_compute. intuition discriminate.
Defined.

Lemma resize_app (s t : string) : resize (String.length s) (s ++ t) = s.
Proof. induction s as [|c s IH]; simpl; [reflexivity | now rewrite IH]. Qed.

(** Only the first 16 characters of the seed count: a longer seed gives the
    very run of its 16 character prefix. *)
Theorem seed_is_truncated (lib : CryptoLib)
    (program level seed rest : string) (w : world) :
  String.length seed = 16%nat ->
  main [program; level; seed ++ rest] w = main [program; level; seed] w.
Proof.
  intros Hlen.
  rewrite (main_eq [program; level; seed ++ rest] w eq_refl).
  rewrite (main_eq [program; level; seed] w eq_refl).
  unfold seeded, seed_bytes. cbn [nth].
  change 16%nat with (Z.to_nat 16) in Hlen.
  pose proof (resize_app seed rest) as H1.
  pose proof (resize_app seed "") as H2.
  rewrite append_nil_r in H2. rewrite Hlen in H1, H2.
  change (Z.to_nat 16) with 16%nat in H1, H2.
  now rewrite H1, H2.
Qed.

Lemma seed_is_truncated_witness :
  main (lib := Toy.sound) ["verifier"; "80"; "0123456789abcdefXYZ"]
    (Toy.start Toy.sound 0 "hello")
  = main (lib := Toy.sound) ["verifier"; "80"; "0123456789abcdef"]
      (Toy.start Toy.sound 0 "hello").
Proof.
  exact (seed_is_truncated Toy.sound "verifier" "80" "0123456789abcdef" "XYZ"
           (Toy.start Toy.sound 0 "hello") eq_refl).
Defined.

(** Line breaks are not part of the message: two inputs that differ only in
    their newline characters give the same run, down to the final world. *)
Theorem newlines_do_not_matter (lib : CryptoLib) (argv : list string)
    (stdin1 stdin2 : string) (w : world) :
  Z.of_nat (List.length argv) = 3 ->
  strip_newlines stdin1 = strip_newlines stdin2 ->
  main argv (with_cin w stdin1) = main argv (with_cin w stdin2).
Proof.
  intros Hargc Hstrip.
  rewrite !(main_eq argv _ Hargc).
  unfold message_length, message_of, seeded, with_cin.
  cbn [cin cout s_globalRNG steady_clock clock_reads trace].
  now rewrite Hstrip.
Qed.

Lemma newlines_do_not_matter_witness :
  main (lib := Toy.sound) ["verifier"; "80"; "seed"]
    (with_cin (Toy.start Toy.sound 0 "")
       (String "h" (String "e" (String newline (String "y" (String newline ""))))))
  = main (lib := Toy.sound) ["verifier"; "80"; "seed"]
      (with_cin (Toy.start Toy.sound 0 "") "hey").
Proof.
  exact (newlines_do_not_matter Toy.sound ["verifier"; "80"; "seed"]
           (String "h" (String "e" (String newline (String "y" (String newline "")))))
           "hey" (Toy.start Toy.sound 0 "") eq_refl eq_refl).
Defined.

(** A run with three arguments returns, with exit code 0, exactly when every
    validation and verification the library was asked for succeeded. *)
Theorem completes_iff_checks_pass (lib : CryptoLib) (argv : list string) (w : world) :
  Z.of_nat (List.length argv) = 3 ->
  checks_pass (calls_since w (main argv w)) = true
  <-> exists w', main argv w = Returned 0 w'.
Proof.
  intros Hargc. split.
  - intros Hpass.
    destruct (checks_pass_since argv w Hargc Hpass) as (w' & _ & Hrun & _).
    now exists w'.
  - intros [w' Hrun].
    destruct (main_spec argv w Hargc) as (ds & tr & _ & Htr & _ & _ & Ho).
    unfold calls_since. rewrite Htr, skipn_length_app.
    rewrite Hrun in Ho. destruct Ho as (_ & _ & Hpass).
    cbn [checks_pass forallb check_passed andb]. exact Hpass.
Qed.

Lemma completes_iff_checks_pass_witness :
  exists w', main (lib := Toy.sound) ["verifier"; "80"; "seed"]
               (Toy.start Toy.sound 0 "hello") = Returned 0 w'.
Proof.
  apply (completes_iff_checks_pass Toy.sound ["verifier"; "80"; "seed"]
           (Toy.start Toy.sound 0 "hello") eq_refl).
  vm_compute. reflexivity.
Defined.

(** ** Every line of every run *)

Lemma descriptions_rows (secLevelIndex inputLength : Z) :
  descriptions secLevelIndex inputLength
  = map (fun row => generateDetailedDescription (fst row)
                      (at_index securityLevels secLevelIndex) (snd row)
                      (int_of inputLength))
        (scheme_rows secLevelIndex).
Proof. reflexivity. Qed.

Lemma csv_lines_forall (P : string -> Prop) (descs : list string) :
  forall ds,
    (forall desc d, In desc descs -> in_size_t d ->
       P (generateCSVString desc "sign" d)
       /\ P (generateCSVString desc "verify" d)) ->
    Forall in_size_t ds ->
    Forall P (csv_lines descs ds).
Proof.
  induction descs as [|desc descs IH]; intros ds HP Hds; [constructor|].
  destruct ds as [|d1 [|d2 ds]]; cbn [csv_lines]; try constructor.
  - apply (HP desc d1); [now left | now inversion Hds].
  - constructor.
    + apply (HP desc d2); [now left|].
      inversion Hds as [|? ? _ H2]. now inversion H2.
    + apply IH.
      * intros desc' d Hin. apply HP. now right.
      * inversion Hds as [|? ? _ H2]. now inversion H2.
Qed.

Lemma run_lines (secLevelIndex inputLength : Z) (ds : list Z) :
  Forall in_size_t ds ->
  Forall (run_line secLevelIndex inputLength)
         (csv_lines (descriptions secLevelIndex inputLength) ds).
Proof.
  intros Hds. apply csv_lines_forall; [|exact Hds].
  intros desc d Hin Hd. rewrite descriptions_rows in Hin.
  apply in_map_iff in Hin as ([name magnitude] & <- & Hrow). cbn [fst snd].
  split; exists name, magnitude; [exists "sign" | exists "verify"];
    exists d; auto.
Qed.

Lemma main_lines {lib : CryptoLib} argv w :
  Z.of_nat (List.length argv) = 3 ->
  Forall (run_line (indexFor (atoi (nth 1 argv ""))) (message_length w))
         (lines_since w (main argv w)).
Proof.
  intros Hargc.
  destruct (main_spec argv w Hargc) as (ds & tr & Hcout & _ & _ & Hds & _).
  unfold lines_since. rewrite Hcout, skipn_length_app.
  now apply run_lines.
Qed.

Lemma scheme_rows_no_comma (secLevelIndex : Z) name magnitude :
  In (name, magnitude) (scheme_rows secLevelIndex) -> no_comma name = true.
Proof.
  unfold scheme_rows. cbn [In].
  intros H. repeat (destruct H as [[= <- _]|H]; [reflexivity|]). contradiction.
Qed.

(** Every line a run writes, whether the run completes or is stopped, reads
    back as a record: one of the eight algorithm names with the magnitude
    its adapter reports, the strength bits of the table row the level
    argument resolved to, the message length as an [int], the operation
    sign or verify, and an elapsed time below 2^64. *)
Theorem every_line_reads_back (lib : CryptoLib) (argv : list string) (w : world) :
  Z.of_nat (List.length argv) = 3 ->
  let index := indexFor (atoi (nth 1 argv "")) in
  Forall (fun line =>
            exists r,
              parse_line line = Some r
              /\ In (algorithmName r, parameterMagnitude r) (scheme_rows index)
              /\ securityLevelBits r = at_index securityLevels index
              /\ inputLengthBytes r = int_of (message_length w)
              /\ (operationName r = "sign" \/ operationName r = "verify")
              /\ in_size_t (elapsedNanoseconds r))
         (lines_since w (main argv w)).
Proof.
  intros Hargc index.
  eapply Forall_impl; [|exact (main_lines argv w Hargc)].
  intros line (name & magnitude & operation & d & Hrow & Hop & Hd & ->).
  eexists. split.
  - apply csv_line_fields_parse.
    + exact (scheme_rows_no_comma _ _ _ Hrow).
    + destruct Hop as [->| ->]; reflexivity.
  - cbn [algorithmName parameterMagnitude securityLevelBits inputLengthBytes
         operationName elapsedNanoseconds]. auto.
Qed.

Lemma every_line_reads_back_witness :
  Forall (fun line => exists r, parse_line line = Some r)
         (lines_since (Toy.start Toy.broken 0 "hello")
            (main (lib := Toy.broken) ["verifier"; "192"; "seed"]
               (Toy.start Toy.broken 0 "hello"))).
Proof.
  eapply Forall_impl;
    [| exact (every_line_reads_back Toy.broken ["verifier"; "192"; "seed"]
                (Toy.start Toy.broken 0 "hello") eq_refl)].
  intros line (r & Hr & _). now exists r.
Defined.

Lemma int_of_message_length (n : Z) :
  0 <= n < 2 ^ 31 -> int_of (size_t_of (int_of n)) = n.
Proof.
  intros Hn. unfold int_of, size_t_of.
  rewrite (Z.mod_small (n + 2 ^ 31)) by lia.
  replace (n + 2 ^ 31 - 2 ^ 31) with n by lia.
  rewrite (Z.mod_small n) by lia.
  rewrite (Z.mod_small (n + 2 ^ 31)) by lia. lia.
Qed.

(** For a message shorter than 2^31 bytes the input length field of every
    line is the number of characters read from standard input, newlines not
    counted. *)
Theorem input_length_field_is_message_length (lib : CryptoLib)
    (argv : list string) (w : world) :
  Z.of_nat (List.length argv) = 3 ->
  Z.of_nat (String.length (strip_newlines (cin w))) < 2 ^ 31 ->
  Forall (fun line =>
            field 3 line
            = to_string (Z.of_nat (String.length (strip_newlines (cin w)))))
         (lines_since w (main argv w)).
Proof.
  intros Hargc Hlen.
  eapply Forall_impl; [|exact (main_lines argv w Hargc)].
  intros line (name & magnitude & operation & d & Hrow & Hop & Hd & ->).
  unfold field. rewrite fields_line.
  - cbn [nth]. unfold message_length, message_of.
    now rewrite int_of_message_length by lia.
  - exact (scheme_rows_no_comma _ _ _ Hrow).
  - destruct Hop as [->| ->]; reflexivity.
Qed.

Lemma input_length_field_is_message_length_witness :
  Forall (fun line => field 3 line = "3")
         (lines_since (Toy.start Toy.sound 0 (String "a" (String newline "bc")))
            (main (lib := Toy.sound) ["verifier"; "80"; "seed"]
               (Toy.start Toy.sound 0 (String "a" (String newline "bc"))))).
Proof.
  exact (input_length_field_is_message_length Toy.sound ["verifier"; "80"; "seed"]
           (Toy.start Toy.sound 0 (String "a" (String newline "bc")))
           eq_refl eq_refl).
Defined.

Lemma csv_lines_pairs (level inputLength : Z) (rows : list (string * Z)) :
  Forall (fun row => no_comma (fst row) = true) rows ->
  forall ds, exists k,
    (k <= List.length rows)%nat
    /\ map (field 0)
         (csv_lines (map (fun row => generateDetailedDescription (fst row) level
                                       (snd row) inputLength) rows) ds)
       = firstn (2 * k) (flat_map (fun row => [fst row; fst row]) rows)
    /\ map (field 4)
         (csv_lines (map (fun row => generateDetailedDescription (fst row) level
                                       (snd row) inputLength) rows) ds)
       = firstn (2 * k) (flat_map (fun _ => ["sign"; "verify"]) rows).
Proof.
  induction rows as [|[name magnitude] rows IH]; intros Hrows ds.
  - exists 0%nat. repeat split; reflexivity || lia.
  - inversion Hrows as [|? ? Hname Hrest]; subst. cbn [fst] in Hname.
    destruct ds as [|d1 [|d2 ds]];
      try (exists 0%nat; cbn [map csv_lines firstn Nat.mul];
           repeat split; reflexivity || lia).
    destruct (IH Hrest ds) as (k & Hk & Hn & Ho).
    exists (S k). split; [cbn [List.length]; lia|].
    replace (2 * S k)%nat with (S (S (2 * k))) by lia.
    cbn [map csv_lines flat_map app firstn fst snd].
    rewrite Hn, Ho. unfold field.
    rewrite !fields_line by (exact Hname || reflexivity).
    split; reflexivity.
Qed.

(** The output of a run, complete or not, is a whole number of pairs: for
    some [k <= 8] it consists of the sign line and the verify line of each
    of the first [k] schemes, in driver order. *)
Theorem lines_come_in_pairs (lib : CryptoLib) (argv : list string) (w : world) :
  Z.of_nat (List.length argv) = 3 ->
  exists k,
    (k <= 8)%nat
    /\ List.length (lines_since w (main argv w)) = (2 * k)%nat
    /\ map (field 0) (lines_since w (main argv w)) = firstn (2 * k) line_names
    /\ map (field 4) (lines_since w (main argv w)) = firstn (2 * k) line_operations.
Proof.
  intros Hargc.
  destruct (main_spec argv w Hargc) as (ds & tr & Hcout & _).
  unfold lines_since. rewrite Hcout, skipn_length_app, descriptions_rows.
  destruct (csv_lines_pairs
              (at_index securityLevels (indexFor (atoi (nth 1 argv ""))))
              (int_of (message_length w))
              (scheme_rows (indexFor (atoi (nth 1 argv ""))))) with (ds := ds)
    as (k & Hk & Hn & Ho).
  { unfold scheme_rows. repeat constructor. }
  exists k. split; [exact Hk|].
  split; [|split; [exact Hn | exact Ho]].
  rewrite <- (length_map (field 0)), Hn, length_firstn.
  change (List.length (flat_map (fun row => [fst row; fst row])
            (scheme_rows (indexFor (atoi (nth 1 argv "")))))) with 16%nat.
  cbn [List.length scheme_rows] in Hk. lia.
Qed.

Lemma lines_come_in_pairs_witness :
  exists k,
    (k <= 8)%nat
    /\ List.length (lines_since (Toy.start Toy.broken 0 "hello")
                      (main (lib := Toy.broken) ["verifier"; "80"; "seed"]
                         (Toy.start Toy.broken 0 "hello"))) = (2 * k)%nat.
Proof.
  destruct (lines_come_in_pairs Toy.broken ["verifier"; "80"; "seed"]
              (Toy.start Toy.broken 0 "hello") eq_refl) as (k & Hk & Hlen & _).
  exists k. split; assumption.
Defined.

(** ** What the driver asks of the library *)

Section DriverCalls.

Context {lib : CryptoLib}.
Variable P : call -> Prop.
Hypothesis P_block : forall size output, P (call_GenerateBlock size output).
Hypothesis P_now : forall t, P (call_now t).

Lemma calls_only_ret {A} (a : A) : calls_only P (ret a).
Proof. intros w. exists []. split; [now rewrite app_nil_r | constructor]. Qed.

Lemma calls_only_bind {A B} (m : M A) (f : A -> M B) :
  calls_only P m -> (forall a, calls_only P (f a)) -> calls_only P (bind m f).
Proof.
  intros Hm Hf w. unfold bind.
  destruct (Hm w) as (tr1 & H1 & F1).
  destruct (m w) as [a w1|w1]; cbn [final] in *.
  - destruct (Hf a w1) as (tr2 & H2 & F2).
    exists (tr1 ++ tr2)%list. split.
    + now rewrite H2, H1, app_assoc.
    + now apply Forall_app.
  - now exists tr1.
Qed.

Lemma calls_only_assert (b : bool) : calls_only P (assert b).
Proof.
  intros w. exists []. unfold assert.
  split; [destruct b; cbn [final]; now rewrite app_nil_r | constructor].
Qed.

Lemma calls_only_print_line (s : string) : calls_only P (print_line s).
Proof.
  intros w. exists []. split; [cbn; now rewrite app_nil_r | constructor].
Qed.

Lemma calls_only_log (c : call) : P c -> calls_only P (log c).
Proof. intros Hc w. exists [c]. split; [reflexivity | now constructor]. Qed.

Lemma calls_only_call_out {A} (a : A) (c : call) : P c -> calls_only P (call_out a c).
Proof.
  intros Hc. unfold call_out.
  apply calls_only_bind; [now apply calls_only_log | intros _; apply calls_only_ret].
Qed.

Lemma calls_only_now : calls_only P now.
Proof.
  intros w. eexists [_]. split; [reflexivity | constructor; [apply P_now | constructor]].
Qed.

Lemma drawn_forall {A} (p : draw A) g : Forall P (drawn p g).
Proof.
  pose proof (drawn_blocks p g) as H.
  induction (drawn p g) as [|c l IH]; [constructor|].
  cbn [forallb] in H. apply andb_prop in H as [Hc Hl].
  constructor; [|exact (IH Hl)].
  destruct c; try discriminate. apply P_block.
Qed.

Lemma calls_only_with_GlobalRNG {A} (p : draw A) (ev : A -> call) :
  (forall a, P (ev a)) -> calls_only P (with_GlobalRNG p ev).
Proof.
  intros Hev w. unfold with_GlobalRNG. rewrite run_draw_app. cbn [final trace].
  eexists (_ ++ [_])%list. split; [now rewrite app_assoc|].
  apply Forall_app. split; [apply drawn_forall | constructor; [apply Hev | constructor]].
Qed.

End DriverCalls.

Section DriverOnMessage.

Context {lib : CryptoLib}.
Variables (input : list byte) (inputLength : Z).

Ltac calls_prim :=
  first [ apply calls_only_ret
        | apply calls_only_assert
        | apply calls_only_print_line
        | apply calls_only_now; intros; exact I
        | apply calls_only_with_GlobalRNG;
          [ intros; exact I | intros; cbn [driver_call]; auto ]
        | apply calls_only_call_out; cbn [driver_call]; auto ].

Ltac calls_next :=
  first [ calls_prim
        | apply calls_only_bind; [ calls_prim | intros ? ] ].

Lemma ProfileSignatureValidate_calls priv pub description :
  calls_only (driver_call input inputLength)
    (ProfileSignatureValidate priv pub input inputLength description false).
Proof.
  unfold ProfileSignatureValidate. cbv zeta.
  calls_next.
  apply calls_only_bind; [ | intros ?].
  { destruct a; cbn [negb]; repeat calls_next. }
  repeat calls_next.
Qed.

Ltac calls_adapter :=
  unfold new_Signer, new_Verifier;
  repeat first
    [ calls_next
    | apply calls_only_bind;
      [ apply ProfileSignatureValidate_calls | intros ? ] ].

Lemma ProfileSignatureSchemes_calls securityLevel :
  calls_only (driver_call input inputLength)
    (ProfileSignatureSchemes input inputLength securityLevel).
Proof.
  unfold ProfileSignatureSchemes.
  apply calls_only_bind; [ | intros _].
  { unfold ValidateRSA. cbv zeta. calls_adapter. }
  apply calls_only_bind; [ | intros _].
  { unfold ValidateNR. cbv zeta. calls_adapter. }
  apply calls_only_bind; [ | intros _].
  { unfold ValidateDSA. cbv zeta. calls_adapter. }
  apply calls_only_bind; [ | intros _].
  { unfold ValidateLUC. cbv zeta. calls_adapter. }
  apply calls_only_bind; [ | intros _].
  { unfold ValidateLUC_DL. cbv zeta. calls_adapter. }
  apply calls_only_bind; [ | intros _].
  { unfold ValidateRabin. cbv zeta. calls_adapter. }
  apply calls_only_bind; [ | intros _].
  { unfold ValidateRW. cbv zeta. calls_adapter. }
  apply calls_only_bind; [ | intros _].
  { unfold ValidateECDSA. cbv zeta. calls_adapter. }
  apply calls_only_ret.
Qed.

End DriverOnMessage.

Lemma main_calls {lib : CryptoLib} argv w :
  Z.of_nat (List.length argv) = 3 ->
  exists tr,
    calls_since w (main argv w)
    = call_RegisterFactories
      :: call_SetKeyWithIV (seed_bytes argv) 16 (seed_bytes argv) :: tr
    /\ Forall (driver_call (list_byte_of_string (message_of w)) (message_length w)) tr.
Proof.
  intros Hargc. rewrite (main_eq argv w Hargc).
  destruct (ProfileSignatureSchemes_calls (list_byte_of_string (message_of w))
              (message_length w) (indexFor (atoi (nth 1 argv ""))) (seeded argv w))
    as (tr & Htr & Hall).
  exists tr. split; [|exact Hall].
  unfold calls_since, bind.
  destruct (ProfileSignatureSchemes _ _ _ (seeded argv w)) as [[] w'|w'];
    cbn [final ret] in *; rewrite Htr; cbn [seeded trace];
    now rewrite <- app_assoc, skipn_length_app.
Qed.

(** Every signing and every verification of a run is given the message read
    from standard input with its length, and every key validation is at
    level 2: the thorough level 3 is never asked for. *)
Theorem library_is_given_the_message (lib : CryptoLib) (argv : list string)
    (w : world) :
  Z.of_nat (List.length argv) = 3 ->
  Forall (fun c =>
            match c with
            | call_SignMessage input inputLength _ =>
                input = list_byte_of_string (strip_newlines (cin w))
                /\ inputLength = message_length w
            | call_VerifyMessage input inputLength _ _ =>
                input = list_byte_of_string (strip_newlines (cin w))
                /\ inputLength = message_length w
            | call_Validate_pub level _ => level = 2
            | call_Validate_priv level _ => level = 2
            | _ => True
            end)
         (calls_since w (main argv w)).
Proof.
  intros Hargc.
  destruct (main_calls argv w Hargc) as (tr & -> & Hall).
  constructor; [exact I|]. constructor; [exact I|].
  eapply Forall_impl; [|exact Hall].
  intros c Hc. destruct c; cbn [driver_call] in Hc; auto.
Qed.

Lemma library_is_given_the_message_witness :
  Forall (fun c =>
            match c with
            | call_SignMessage input inputLength _ =>
                input = list_byte_of_string "hello" /\ inputLength = 5
            | _ => True
            end)
         (calls_since (Toy.start Toy.sound 0 "hello")
            (main (lib := Toy.sound) ["verifier"; "80"; "seed"]
               (Toy.start Toy.sound 0 "hello"))).
Proof.
  eapply Forall_impl;
    [| exact (library_is_given_the_message Toy.sound ["verifier"; "80"; "seed"]
                (Toy.start Toy.sound 0 "hello") eq_refl)].
  intros c Hc. destruct c; auto.
Defined.

Lemma driver_never_keys input inputLength (tr : list call) :
  Forall (driver_call input inputLength) tr -> filter is_SetKeyWithIV tr = [].
Proof.
  induction 1 as [|c tr Hc _ IH]; [reflexivity|].
  destruct c; cbn [filter is_SetKeyWithIV]; try exact IH. contradiction.
Qed.

(** The generator is keyed exactly once in a run, with the 16 bytes of the
    resized seed as key and as IV, and that is the second call of the run:
    only the registration of the factories comes before it, so no block is
    ever drawn from an unkeyed generator. *)
Theorem generator_keyed_once (lib : CryptoLib) (argv : list string) (w : world) :
  Z.of_nat (List.length argv) = 3 ->
  filter is_SetKeyWithIV (calls_since w (main argv w))
  = [call_SetKeyWithIV (seed_bytes argv) 16 (seed_bytes argv)]
  /\ firstn 2 (calls_since w (main argv w))
     = [ call_RegisterFactories;
         call_SetKeyWithIV (seed_bytes argv) 16 (seed_bytes argv) ]
  /\ List.length (seed_bytes argv) = 16%nat.
Proof.
  intros Hargc.
  destruct (main_calls argv w Hargc) as (tr & -> & Hall).
  cbn [filter is_SetKeyWithIV firstn].
  rewrite (driver_never_keys _ _ _ Hall).
  repeat split. apply seed_bytes_length.
Qed.

Lemma generator_keyed_once_witness :
  List.length (filter is_SetKeyWithIV
                 (calls_since (Toy.start Toy.sound 0 "hello")
                    (main (lib := Toy.sound) ["verifier"; "80"; "seed"]
                       (Toy.start Toy.sound 0 "hello")))) = 1%nat.
Proof.
  rewrite (proj1 (generator_keyed_once Toy.sound ["verifier"; "80"; "seed"]
                    (Toy.start Toy.sound 0 "hello") eq_refl)).
  reflexivity.
Defined.

(** ** What an adapter reports and what it generates *)

Lemma description_lines_magnitude (name : string) (level magnitude n : Z) (ds : list Z) :
  no_comma name = true ->
  Forall (fun line => field 2 line = to_string magnitude)
         (csv_lines [generateDetailedDescription name level magnitude n] ds).
Proof.
  intros Hname.
  destruct ds as [|d1 [|d2 ds]]; cbn [csv_lines]; repeat constructor;
    unfold field; now rewrite fields_line.
Qed.

Lemma adapter_reports {lib : CryptoLib} {A} name level magnitude n ctors w
    (o : outcome A) :
  no_comma name = true ->
  profiled (generateDetailedDescription name level magnitude n) ctors w o ->
  constructions (calls_since w o) = ctors
  /\ Forall (fun line => field 2 line = to_string magnitude) (lines_since w o).
Proof.
  intros Hname Hp. apply profiled_since in Hp as (ds & -> & _ & Hk & _).
  split; [exact Hk | now apply description_lines_magnitude].
Qed.

(** The RSA, DSA, LUC, LUC-DL, Rabin and RW adapters report in the third
    field of their lines the very magnitude their key was generated with. *)
Theorem reported_magnitude_is_generated (lib : CryptoLib)
    (input : list byte) (inputLength secLevelIndex : Z) (w : world) :
  let agree (s : scheme) (o : outcome bool) :=
    exists bits,
      constructions (calls_since w o) = [call_Signer s bits]
      /\ Forall (fun line => field 2 line = to_string bits) (lines_since w o) in
  agree RSASSA_PKCS1v15_MD2 (ValidateRSA input inputLength secLevelIndex w)
  /\ agree DSA (ValidateDSA input inputLength secLevelIndex w)
  /\ agree LUCSSA_PKCS1v15_SHA (ValidateLUC input inputLength secLevelIndex w)
  /\ agree LUC_HMP_SHA (ValidateLUC_DL input inputLength secLevelIndex w)
  /\ agree RabinSS_PSSR_SHA (ValidateRabin input inputLength secLevelIndex w)
  /\ agree RWSS_PSSR_SHA (ValidateRW input inputLength secLevelIndex w).
Proof.
  cbv zeta.
  repeat split; eexists.
  - exact (adapter_reports "RSA" _ _ _ _ _ _ eq_refl
             (ValidateRSA_spec input inputLength secLevelIndex w)).
  - exact (adapter_reports "DSA" _ _ _ _ _ _ eq_refl
             (ValidateDSA_spec input inputLength secLevelIndex w)).
  - exact (adapter_reports "LUC" _ _ _ _ _ _ eq_refl
             (ValidateLUC_spec input inputLength secLevelIndex w)).
  - exact (adapter_reports "LUC-DL" _ _ _ _ _ _ eq_refl
             (ValidateLUC_DL_spec input inputLength secLevelIndex w)).
  - exact (adapter_reports "Rabin" _ _ _ _ _ _ eq_refl
             (ValidateRabin_spec input inputLength secLevelIndex w)).
  - exact (adapter_reports "RW" _ _ _ _ _ _ eq_refl
             (ValidateRW_spec input inputLength secLevelIndex w)).
Qed.

(** The NR adapter does not: for every index of the table its lines report
    the factorization group size, while its key is generated with the
    subgroup size, which is smaller. *)
Theorem NR_reports_another_magnitude (lib : CryptoLib)
    (input : list byte) (inputLength secLevelIndex : Z) (w : world) :
  0 <= secLevelIndex < NUMBER_OF_SECURITY_LENGTHS ->
  let o := ValidateNR input inputLength secLevelIndex w in
  exists generated reported,
    constructions (calls_since w o) = [call_Signer NR_SHA generated]
    /\ Forall (fun line => field 2 line = to_string reported) (lines_since w o)
    /\ generated = at_index finiteFieldSubgroupSizes secLevelIndex
    /\ reported = at_index factorizationGroupSizes secLevelIndex
    /\ generated < reported.
Proof.
  intros Hidx o.
  destruct (adapter_reports "NR" _ _ _ _ _ _ eq_refl
             (ValidateNR_spec input inputLength secLevelIndex w)) as [Hk Hl].
  eexists _, _. split; [exact Hk|]. split; [exact Hl|].
  split; [reflexivity|]. split; [reflexivity|].
  unfold NUMBER_OF_SECURITY_LENGTHS in Hidx.
  assert (H : secLevelIndex = 0 \/ secLevelIndex = 1 \/ secLevelIndex = 2
              \/ secLevelIndex = 3 \/ secLevelIndex = 4) by lia.
  destruct H as [->|[->|[->|[->| ->]]]]; reflexivity.
Qed.

Lemma NR_reports_another_magnitude_witness :
  let w := Toy.start Toy.sound 0 "" in
  exists generated reported,
    constructions (calls_since w (ValidateNR (lib := Toy.sound) [] 0 2 w))
    = [call_Signer NR_SHA generated]
    /\ generated < reported.
Proof.
  intros w.
  destruct (NR_reports_another_magnitude Toy.sound [] 0 2 w ltac:(vm_compute; intuition discriminate))
    as (g & r & Hk & _ & _ & _ & Hlt).
  exists g, r. split; assumption.
Defined.

(** ** The lookup and the tables *)

(** Whatever integer is looked up, the index found lies inside the five
    entry tables, so no adapter ever reads a table out of bounds; and for a
    level of the table the row found is the row of that level. *)
Theorem lookup_stays_in_table (securityLevel : Z) :
  0 <= indexFor securityLevel < NUMBER_OF_SECURITY_LENGTHS
  /\ In (at_index securityLevels (indexFor securityLevel)) securityLevels
  /\ (In securityLevel securityLevels ->
      at_index securityLevels (indexFor securityLevel) = securityLevel).
Proof.
  rewrite indexFor_cases. unfold NUMBER_OF_SECURITY_LENGTHS, securityLevels.
  destruct (Z.eqb_spec securityLevel 80) as [->|N1];
    [split; [lia | split; [cbn; tauto | reflexivity]]|].
  destruct (Z.eqb_spec securityLevel 112) as [->|N2];
    [split; [lia | split; [cbn; tauto | reflexivity]]|].
  destruct (Z.eqb_spec securityLevel 128) as [->|N3];
    [split; [lia | split; [cbn; tauto | reflexivity]]|].
  destruct (Z.eqb_spec securityLevel 192) as [->|N4];
    [split; [lia | split; [cbn; tauto | reflexivity]]|].
  destruct (Z.eqb_spec securityLevel 256) as [->|N5];
    [split; [lia | split; [cbn; tauto | reflexivity]]|].
  split; [lia | split; [cbn; tauto |]].
  intros [H|[H|[H|[H|[H|[]]]]]]; congruence.
Qed.

Lemma lookup_stays_in_table_witness :
  at_index securityLevels (indexFor 192) = 192.
Proof.
  apply (proj2 (proj2 (lookup_stays_in_table 192))).
  cbn. tauto.
Defined.
